(** * epa_pi_stream: the network tables of [table_network.py]

    A shallow embedding of the data-input module of the EPANET Streamlit
    application: the three tables (nodes, pipes, demands), the pandas
    operations [validate_network] performs on them, the assembly of the
    network object ([create_network]) and the import of an existing
    [.inp] file ([parse_inp_file]).

    A pandas DataFrame is a list of rows; a column is the list of the
    cells of that field.  A cell holding an identifier is either a string
    or missing (NaN, what [read_csv] and [read_excel] produce for an empty
    cell).  Numeric cells are only passed along by the code, so their type
    is a parameter. *)

From Stdlib Require Import QArith.
From stdpp Require Import gmap strings list.

(** ** Python exceptions and results *)

Inductive exn : Type :=
  | TypeError   (* str.join over a non-string item *)
  | IndexError  (* [.values[0]] of an empty selection *)
  | IOError     (* reading the upload, writing a file (OSError) *)
  | ValueError  (* plotly rejects an argument *)
  | AttributeError  (* graphviz quotes a name that is not a string *)
  | LibError (msg : string).  (* raised inside epanettools *)

Inductive result (A : Type) : Type :=
  | Ok (a : A)
  | Raise (e : exn).
Arguments Ok {A} a.
Arguments Raise {A} e.

#[global] Instance result_ret : MRet result := λ A, @Ok A.
#[global] Instance result_bind : MBind result := λ A B f m,
  match m with
  | Ok a => f a
  | Raise e => Raise e
  end.

#[global] Instance exn_eq_dec : EqDecision exn.
Proof. solve_decision. Defined.

(** ** Cells and columns *)

(** An object cell: a string, or [None] for NaN. *)
Definition cell : Type := option string.

(** What an f-string writes for a cell: [str(float('nan'))] is ['nan']. *)
Definition fmt (c : cell) : string := default "nan" c.

(** [Series.dropna().tolist()]. *)
Definition dropna (s : list cell) : list string := omap id s.

(** [Series.duplicated()], keep='first': an entry is marked when an equal
    one stands before it.  pandas counts NaN as equal to NaN here. *)
Fixpoint duplicated_from (seen : list cell) (s : list cell) : list bool :=
  match s with
  | [] => []
  | c :: s' => bool_decide (c ∈ seen) :: duplicated_from (c :: seen) s'
  end.

Definition duplicated (s : list cell) : list bool := duplicated_from [] s.

(** Boolean indexing [s[m]]. *)
Fixpoint mask {A : Type} (s : list A) (m : list bool) : list A :=
  match s, m with
  | x :: s', b :: m' => if b then x :: mask s' m' else mask s' m'
  | _, _ => []
  end.

(** [Series.unique()]: the distinct values in order of first appearance. *)
Fixpoint unique_from (seen : list cell) (s : list cell) : list cell :=
  match s with
  | [] => []
  | c :: s' =>
      if bool_decide (c ∈ seen) then unique_from seen s'
      else c :: unique_from (c :: seen) s'
  end.

Definition unique (s : list cell) : list cell := unique_from [] s.

(** [Series.empty]. *)
Definition empty_series {A : Type} (s : list A) : bool :=
  match s with [] => true | _ => false end.

(** [sep.join(strings)]. *)
Definition concat_with (sep : string) (l : list string) : string :=
  String.concat sep l.

(** [sep.join(items)] over cells: a NaN item is a float, and [str.join]
    raises TypeError on the first item that is not a string. *)
Definition join (sep : string) (l : list cell) : result string :=
  match mapM id l with
  | Some ss => Ok (concat_with sep ss)
  | None => Raise TypeError
  end.

(** [c in l] for a cell and a list of strings. *)
Definition cell_in (c : cell) (l : list string) : bool :=
  match c with
  | Some s => bool_decide (s ∈ l)
  | None => false
  end.

(** ** The three tables *)

Section Tables.
Context {num : Type}.

(** A row of the node table: columns type, id, x, y, elevation. *)
Record node_row : Type := NodeRow {
  nd_type : cell;
  nd_id : cell;
  nd_x : num;
  nd_y : num;
  nd_elevation : num
}.

(** A row of the pipe table: columns id, from, to, length, diameter,
    roughness. *)
Record pipe_row : Type := PipeRow {
  pp_id : cell;
  pp_from : cell;
  pp_to : cell;
  pp_length : num;
  pp_diameter : num;
  pp_roughness : num
}.

(** A row of the demand table: columns node_id, demand (m3/s). *)
Record demand_row : Type := DemandRow {
  dm_node_id : cell;
  dm_demand : num
}.

(** ** validate_network *)

(** The pair (errors, suggestions) the function builds and returns. *)
Definition report : Type := list string * list string.

Definition unknown_from_msg (row : pipe_row) : string :=
  "Pipe " +:+ fmt (pp_id row) +:+ " connects from unknown node '"
    +:+ fmt (pp_from row) +:+ "'".
Definition unknown_to_msg (row : pipe_row) : string :=
  "Pipe " +:+ fmt (pp_id row) +:+ " connects to unknown node '"
    +:+ fmt (pp_to row) +:+ "'".
Definition add_node_hint (c : cell) : string :=
  "Add node '" +:+ fmt c +:+ "' to node table.".
Definition unknown_demand_msg (node : string) : string :=
  "Demand specified at non-existent node '" +:+ node +:+ "'".
Definition check_demand_hint (node : string) : string :=
  "Check demand node '" +:+ node +:+ "' or add it to node table.".

(** Body of the loop over [pipes_df.iterrows()]. *)
Definition check_pipe (node_ids : list string) (acc : report) (row : pipe_row)
    : report :=
  let '(errors, suggestions) := acc in
  let '(errors, suggestions) :=
    if negb (cell_in (pp_from row) node_ids) then
      (errors ++ [unknown_from_msg row],
       suggestions ++ [add_node_hint (pp_from row)])
    else (errors, suggestions) in
  if negb (cell_in (pp_to row) node_ids) then
    (errors ++ [unknown_to_msg row],
     suggestions ++ [add_node_hint (pp_to row)])
  else (errors, suggestions).

(** Body of the loop over [demand_ids]. *)
Definition check_demand (node_ids : list string) (acc : report) (node : string)
    : report :=
  let '(errors, suggestions) := acc in
  if negb (bool_decide (node ∈ node_ids)) then
    (errors ++ [unknown_demand_msg node],
     suggestions ++ [check_demand_hint node])
  else (errors, suggestions).

(** [set(pipes_df['from']).union(set(pipes_df['to']))]. *)
Definition connected_set (pipes_df : list pipe_row) : gset cell :=
  list_to_set (pp_from <$> pipes_df) ∪ list_to_set (pp_to <$> pipes_df).

(** [nodes_df[nodes_df['id'] == n]['type'].values[0]]: the type cell of the
    first row whose id equals [n]. *)
Definition first_type (nodes_df : list node_row) (n : string) : result cell :=
  match filter (λ r, nd_id r = Some n) nodes_df with
  | r :: _ => Ok (nd_type r)
  | [] => Raise IndexError
  end.

(** The condition of the comprehension building [isolated]; [and] evaluates
    its right operand only when the left one holds. *)
Definition is_isolated (nodes_df : list node_row) (connected : gset cell)
    (n : string) : result bool :=
  if bool_decide (Some n ∉ connected) then
    t ← first_type nodes_df n; Ok (bool_decide (t ≠ Some "tank"))
  else Ok false.

(** A list comprehension [[x for x in l if p(x)]] whose condition may raise. *)
Fixpoint keep_if {A : Type} (p : A → result bool) (l : list A)
    : result (list A) :=
  match l with
  | [] => Ok []
  | x :: l' =>
      b ← p x; r ← keep_if p l'; Ok (if b : bool then x :: r else r)
  end.

(** The list [isolated] of line 109. *)
Definition isolated_nodes (nodes_df : list node_row) (pipes_df : list pipe_row)
    : result (list string) :=
  let node_ids := dropna (nd_id <$> nodes_df) in
  let connected := connected_set pipes_df in
  keep_if (is_isolated nodes_df connected) node_ids.

Definition duplicate_nodes_msg (s : string) : string :=
  "Duplicate node IDs: " +:+ s.
Definition duplicate_pipes_msg (s : string) : string :=
  "Duplicate pipe IDs: " +:+ s.
Definition isolated_msg (isolated : list string) : string :=
  "Isolated nodes with no connected pipes: " +:+ concat_with ", " isolated.

(** The two duplicate checks: the identifiers marked by [duplicated()] are
    joined into one message. *)
Definition check_duplicates (msg : string → string) (suggestion : string)
    (ids : list cell) (acc : report) : result report :=
  let '(errors, suggestions) := acc in
  let duplicates := mask ids (duplicated ids) in
  if negb (empty_series duplicates) then
    s ← join ", " (unique duplicates);
    Ok (errors ++ [msg s], suggestions ++ [suggestion])
  else Ok (errors, suggestions).

Definition validate_network (nodes_df : list node_row)
    (pipes_df : list pipe_row) (demands_df : list demand_row)
    : result report :=
  let errors := [] in
  let suggestions := [] in
  let node_ids := dropna (nd_id <$> nodes_df) in
  let pipe_ids := dropna (pp_id <$> pipes_df) in
  let demand_ids := dropna (dm_node_id <$> demands_df) in
  acc ← check_duplicates duplicate_nodes_msg
          "Remove or rename duplicate node IDs."
          (nd_id <$> nodes_df) (errors, suggestions);
  acc ← check_duplicates duplicate_pipes_msg
          "Ensure each pipe ID is unique."
          (pp_id <$> pipes_df) acc;
  let acc := foldl (check_pipe node_ids) acc pipes_df in
  let acc := foldl (check_demand node_ids) acc demand_ids in
  isolated ← isolated_nodes nodes_df pipes_df;
  let '(errors, suggestions) := acc in
  if negb (empty_series isolated) then
    Ok (errors ++ [isolated_msg isolated],
        suggestions ++ ["Connect isolated nodes with pipes."])
  else Ok (errors, suggestions).

End Tables.

Arguments node_row : clear implicits.
Arguments pipe_row : clear implicits.
Arguments demand_row : clear implicits.

(** ** create_network *)

(** The network object of epanettools is outside this repository.  The code
    only constructs it and calls four methods on it, each of which updates
    the object and may raise; the class below is that interface. *)
Class NetworkLib (num Net : Type) : Type := {
  Network : Net;
  addTank : Net → cell → num → num → num → result Net;
  addNode : Net → cell → num → num → num → result Net;
  addPipe : Net → cell → cell → cell → num → num → num → result Net;
  addDemand : Net → string → num → string → result Net
}.

(** A [for] loop whose body updates a state and may raise. *)
Fixpoint for_each {S A : Type} (body : S → A → result S) (l : list A) (s : S)
    : result S :=
  match l with
  | [] => Ok s
  | x :: l' => s' ← body s x; for_each body l' s'
  end.

Section Assembly.
Context {num Net : Type} `{!NetworkLib num Net}.

Definition add_node_row (net : Net) (row : node_row num) : result Net :=
  if bool_decide (nd_type row = Some "tank") then
    addTank net (nd_id row) (nd_x row) (nd_y row) (nd_elevation row)
  else
    addNode net (nd_id row) (nd_x row) (nd_y row) (nd_elevation row).

Definition add_pipe_row (net : Net) (row : pipe_row num) : result Net :=
  addPipe net (pp_id row) (pp_from row) (pp_to row)
    (pp_length row) (pp_diameter row) (pp_roughness row).

(** [if pd.notna(row['node_id']): net.addDemand(...)]. *)
Definition add_demand_row (net : Net) (row : demand_row num) : result Net :=
  match dm_node_id row with
  | Some node_id => addDemand net node_id (dm_demand row) "BASE"
  | None => Ok net
  end.

Definition create_network (nodes_df : list (node_row num))
    (pipes_df : list (pipe_row num)) (demands_df : list (demand_row num))
    : result Net :=
  let net := Network in
  net ← for_each add_node_row nodes_df net;
  net ← for_each add_pipe_row pipes_df net;
  net ← for_each add_demand_row demands_df net;
  Ok net.

End Assembly.

(** The recording network: an object that keeps, in order, the calls made
    on it and never raises.  Whatever the real object stores, it is a
    function of these calls. *)
Inductive call (num : Type) : Type :=
  | AddTank (id : cell) (x y elevation : num)
  | AddNode (id : cell) (x y elevation : num)
  | AddPipe (id from to : cell) (length diameter roughness : num)
  | AddDemand (node_id : string) (demand : num) (category : string).
Arguments AddTank {num}.
Arguments AddNode {num}.
Arguments AddPipe {num}.
Arguments AddDemand {num}.

#[global] Instance recording_network (num : Type)
    : NetworkLib num (list (call num)) := {|
  Network := [];
  addTank net id x y e := Ok (net ++ [AddTank id x y e]);
  addNode net id x y e := Ok (net ++ [AddNode id x y e]);
  addPipe net id a b l d r := Ok (net ++ [AddPipe id a b l d r]);
  addDemand net n q c := Ok (net ++ [AddDemand n q c])
|}.

(** The demands attached to a recorded network: node and rate of each
    [addDemand] call. *)
Definition demand_set {num : Type} (net : list (call num))
    : list (string * num) :=
  omap (λ c, match c with AddDemand n q _ => Some (n, q) | _ => None end) net.

(** ** parse_inp_file *)

(** What the code reads off the object epanettools builds from a file. *)
Record lib_node (num : Type) : Type := LibNode {
  node_type : string;
  node_id : string;
  elevation : num
}.
Arguments LibNode {num}.
Arguments node_type {num}.
Arguments node_id {num}.
Arguments elevation {num}.

Record lib_link (num : Type) : Type := LibLink {
  link_type : string;
  link_id : string;
  start_node : lib_node num;
  end_node : lib_node num;
  link_length : num;
  diameter : num;
  roughness : num
}.
Arguments LibLink {num}.
Arguments link_type {num}.
Arguments link_id {num}.
Arguments start_node {num}.
Arguments end_node {num}.
Arguments link_length {num}.
Arguments diameter {num}.
Arguments roughness {num}.

Record lib_junction (num : Type) : Type := LibJunction {
  junction_id : string;
  base_demand : num
}.
Arguments LibJunction {num}.
Arguments junction_id {num}.
Arguments base_demand {num}.

(** [sim.network]: its nodes, links and junctions collections. *)
Record lib_network (num : Type) : Type := LibNetwork {
  net_nodes : list (lib_node num);
  net_links : list (lib_link num);
  net_junctions : list (lib_junction num)
}.
Arguments LibNetwork {num}.
Arguments net_nodes {num}.
Arguments net_links {num}.
Arguments net_junctions {num}.

(** The file system as far as the function touches it: the files on disk
    with their contents, and the paths held open. *)
Definition bytes : Type := list Byte.byte.

Record fs : Type := Fs {
  fs_files : gmap string bytes;
  fs_open : gset string
}.

(** [tempfile.NamedTemporaryFile(delete=..., suffix=...)] on entry of the
    [with] block: the file is created empty and held open. *)
Definition tmp_enter (name : string) (st : fs) : fs :=
  {| fs_files := <[name := []]> (fs_files st);
     fs_open := {[name]} ∪ fs_open st |}.

(** [tmp.write(data); tmp.flush()]. *)
Definition tmp_write_flush (name : string) (data : bytes) (st : fs) : fs :=
  {| fs_files := <[name := data]> (fs_files st);
     fs_open := fs_open st |}.

(** Leaving the [with] block, normally or by an exception: the file is
    closed, and removed only when it was created with [delete=True]. *)
Definition tmp_exit (delete : bool) (name : string) (st : fs) : fs :=
  {| fs_files := if delete then base.delete name (fs_files st) else fs_files st;
     fs_open := fs_open st ∖ {[name]} |}.

Section InpImport.
Context {num : Type}.
(** A Python int literal as a numeric cell. *)
Context (int_lit : Z → num).
(** The name [NamedTemporaryFile] picks, before the suffix. *)
Context (mktemp : fs → string).
(** The parser behind [EPANetSimulation]: the network it reads from the
    text of a file, or the exception it raises. *)
Context (read_inp : bytes → result (lib_network num)).

(** [EPANetSimulation(path)]. *)
Definition EPANetSimulation (st : fs) (path : string)
    : result (lib_network num) :=
  match fs_files st !! path with
  | Some text => read_inp text
  | None => Raise IOError
  end.

Definition node_record (node : lib_node num) : node_row num :=
  NodeRow (Some (if bool_decide (node_type node = "Tank") then "tank" else "node"))
          (Some (node_id node)) (int_lit 0) (int_lit 0) (elevation node).

Definition pipe_record (link : lib_link num) : pipe_row num :=
  PipeRow (Some (link_id link))
          (Some (node_id (start_node link))) (Some (node_id (end_node link)))
          (link_length link) (diameter link) (roughness link).

Definition demand_record (j : lib_junction num) : demand_row num :=
  DemandRow (Some (junction_id j)) (base_demand j).

(** The three loops filling nodes_data, pipes_data and demands_data. *)
Definition tables_of (network : lib_network num)
    : list (node_row num) * list (pipe_row num) * list (demand_row num) :=
  let nodes_data := foldl (λ acc node, acc ++ [node_record node]) []
                      (net_nodes network) in
  let pipes_data := foldl (λ acc link,
                      if bool_decide (link_type link = "Pipe")
                      then acc ++ [pipe_record link] else acc) []
                      (net_links network) in
  let demands_data := foldl (λ acc j, acc ++ [demand_record j]) []
                        (net_junctions network) in
  (nodes_data, pipes_data, demands_data).

(** [file] is the outcome of [file.read()] on the upload. *)
Definition parse_inp_file (file : result bytes) (st : fs)
    : fs * result (list (node_row num) * list (pipe_row num)
                   * list (demand_row num)) :=
  let name := mktemp st +:+ ".inp" in
  let st := tmp_enter name st in
  let '(st, sim) :=
    match file with
    | Raise e => (st, Raise e)
    | Ok data =>
        let st := tmp_write_flush name data st in
        (st, EPANetSimulation st name)
    end in
  let st := tmp_exit false name st in
  (st, network ← sim; Ok (tables_of network)).

End InpImport.

(** ** Notions used in the statements *)

(** How often a value occurs in a column. *)
Definition occurrences (c : cell) (s : list cell) : nat :=
  length (filter (λ c', c' = c) s).

(** How many cells of a column are missing. *)
Definition missing_count (ids : list cell) : nat := occurrences None ids.

(** A report pairs every error with one suggestion. *)
Definition paired (acc : list string * list string) : Prop :=
  length acc.1 = length acc.2.

#[global] Instance result_eq_dec {A : Type} `{EqDecision A}
  : EqDecision (result A).
Proof. solve_decision. Defined.

Section Expected.
Context {num : Type}.

(** What one duplicate check contributes to the errors. *)
Definition duplicate_errors (msg : string → string) (ids : list cell)
    : list string :=
  match mask ids (duplicated ids) with
  | [] => []
  | duplicates => [msg (concat_with ", " (dropna (unique duplicates)))]
  end.

Definition duplicate_hints (hint : string) (ids : list cell) : list string :=
  match mask ids (duplicated ids) with
  | [] => []
  | _ => [hint]
  end.

(** What one pipe row contributes. *)
Definition pipe_errors (node_ids : list string) (row : pipe_row num)
    : list string :=
  (if cell_in (pp_from row) node_ids then [] else [unknown_from_msg row]) ++
  (if cell_in (pp_to row) node_ids then [] else [unknown_to_msg row]).

Definition pipe_hints (node_ids : list string) (row : pipe_row num)
    : list string :=
  (if cell_in (pp_from row) node_ids then [] else [add_node_hint (pp_from row)]) ++
  (if cell_in (pp_to row) node_ids then [] else [add_node_hint (pp_to row)]).

(** What one demand reference contributes. *)
Definition demand_errors (node_ids : list string) (node : string)
    : list string :=
  if bool_decide (node ∈ node_ids) then [] else [unknown_demand_msg node].

Definition demand_hints (node_ids : list string) (node : string)
    : list string :=
  if bool_decide (node ∈ node_ids) then [] else [check_demand_hint node].

(** The identifiers the connectivity check lists: those no pipe touches and
    whose first row is not a tank. *)
Definition isolated_list (nodes_df : list (node_row num))
    (pipes_df : list (pipe_row num)) : list string :=
  filter (λ n, (Some n ∉ connected_set pipes_df)
               ∧ (first_type nodes_df n ≠ Ok (Some "tank")))
         (dropna (nd_id <$> nodes_df)).

Definition isolated_errors (isolated : list string) : list string :=
  match isolated with
  | [] => []
  | _ => [isolated_msg isolated]
  end.

Definition isolated_hints (isolated : list string) : list string :=
  match isolated with
  | [] => []
  | _ => ["Connect isolated nodes with pipes."]
  end.

(** The report of a run that does not raise, check by check. *)
Definition expected_errors (nodes_df : list (node_row num))
    (pipes_df : list (pipe_row num))
    (demands_df : list (demand_row num)) : list string :=
  let node_ids := dropna (nd_id <$> nodes_df) in
  duplicate_errors duplicate_nodes_msg (nd_id <$> nodes_df)
  ++ duplicate_errors duplicate_pipes_msg (pp_id <$> pipes_df)
  ++ concat (pipe_errors node_ids <$> pipes_df)
  ++ concat (demand_errors node_ids <$> dropna (dm_node_id <$> demands_df))
  ++ isolated_errors (isolated_list nodes_df pipes_df).

Definition expected_hints (nodes_df : list (node_row num))
    (pipes_df : list (pipe_row num))
    (demands_df : list (demand_row num)) : list string :=
  let node_ids := dropna (nd_id <$> nodes_df) in
  duplicate_hints "Remove or rename duplicate node IDs." (nd_id <$> nodes_df)
  ++ duplicate_hints "Ensure each pipe ID is unique." (pp_id <$> pipes_df)
  ++ concat (pipe_hints node_ids <$> pipes_df)
  ++ concat (demand_hints node_ids <$> dropna (dm_node_id <$> demands_df))
  ++ isolated_hints (isolated_list nodes_df pipes_df).

End Expected.

Section Vocabulary.
Context {num : Type}.

(** A node is reported as isolated when the function returns, the list
    [isolated] of line 109 holds its identifier, and the message built from
    that list is among the errors. *)
Definition reported_isolated (nodes_df : list (node_row num))
    (pipes_df : list (pipe_row num)) (demands_df : list (demand_row num))
    (n : string) : Prop :=
  ∃ isolated errors suggestions,
    isolated_nodes nodes_df pipes_df = Ok isolated ∧ n ∈ isolated ∧
    validate_network nodes_df pipes_df demands_df = Ok (errors, suggestions) ∧
    isolated_msg isolated ∈ errors.

(** The same record with kind tank. *)
Definition as_tank (row : node_row num) : node_row num :=
  NodeRow (Some "tank") (nd_id row) (nd_x row) (nd_y row) (nd_elevation row).

(** The call a row gives rise to on the network object. *)
Definition node_call (row : node_row num) : call num :=
  if bool_decide (nd_type row = Some "tank") then
    AddTank (nd_id row) (nd_x row) (nd_y row) (nd_elevation row)
  else
    AddNode (nd_id row) (nd_x row) (nd_y row) (nd_elevation row).

Definition pipe_call (row : pipe_row num) : call num :=
  AddPipe (pp_id row) (pp_from row) (pp_to row)
    (pp_length row) (pp_diameter row) (pp_roughness row).

Definition demand_calls (row : demand_row num) : list (call num) :=
  match dm_node_id row with
  | Some node_id => [AddDemand node_id (dm_demand row) "BASE"]
  | None => []
  end.

(** Node and rate of the demand rows whose node reference is present. *)
Definition present_demands (demands_df : list (demand_row num))
    : list (string * num) :=
  omap (λ row, n ← dm_node_id row; Some (n, dm_demand row)) demands_df.

End Vocabulary.

(** A temporary file is cleaned up when it is no longer on disk. *)
Definition cleaned_up (name : string) (st : fs) : Prop :=
  fs_files st !! name = None.

(** ** draw_graph *)


Section Drawing.
Context {num : Type}.
(** How an f-string writes a numeric cell. *)
Context (show_num : num → string).




End Drawing.

(** ** export_csv (run_simulation.py) *)

Section CsvExport.
Context {table : Type}.
(** The text [DataFrame.to_csv] writes for a table. *)
Context (csv_text : table → bytes).

(** Whether a file can be created or overwritten at a path: its directory
    exists, it may be written to. *)
Context (can_write : fs → string → bool).



End CsvExport.

(** ** view_results.py *)

Section Results.
Context {num : Type}.
Context (int_lit : Z → num).

(** The pressure table: one column per node name, each a series over the
    time steps.  Column names are kept in order. *)
Definition frame : Type := list (string * list num).

(** [pressure_df.columns]. *)
Definition columns (df : frame) : list string := df.*1.

(** [pressure_df[name]] for a name that may be absent. *)
Definition column (df : frame) (name : string) : option (list num) :=
  snd <$> head (filter (λ c, c.1 = name) df).

(** [series.iloc[i]]: positional access, a negative position counting from
    the end; IndexError outside the series. *)
Definition iloc (series : list num) (i : Z) : result num :=
  let n := Z.of_nat (length series) in
  let j := if bool_decide (i < 0)%Z then (i + n)%Z else i in
  if bool_decide (0 ≤ j < n)%Z then
    match series !! Z.to_nat j with
    | Some v => Ok v
    | None => Raise IndexError
    end
  else Raise IndexError.

(** The arguments of the one [go.Scatter] trace of the map. *)
Record scatter : Type := Scatter {
  sc_x : list num;
  sc_y : list num;
  sc_color : list (option num);
  sc_text : list string
}.

(** Body of the loop over [wn.nodes()]; a node is its name and, when it has
    the attribute, its coordinates. *)
Definition map_node (pressure_df : frame) (timestep : Z) (acc : scatter)
    (item : string * option (num * num)) : result scatter :=
  let '(node_name, coordinates) := item in
  let '(x, y) :=
    match coordinates with
    | Some xy => xy
    | None => (int_lit 0, int_lit 0)
    end in
  let x_list := sc_x acc ++ [x] in
  let y_list := sc_y acc ++ [y] in
  let id_list := sc_text acc ++ [node_name] in
  pressure_value ←
    (if bool_decide (node_name ∈ columns pressure_df) then
       match column pressure_df node_name with
       | Some series => v ← iloc series timestep; Ok (Some v)
       | None => Raise IndexError  (* not reached: the name is a column *)
       end
     else Ok None);
  Ok (Scatter x_list y_list (sc_color acc ++ [pressure_value]) id_list).

(** [go.Scatter(x=..., y=..., marker=dict(color=pressure_list, ...),
    text=...)]: plotly validates the marker colours and raises ValueError
    when the list holds None. *)
Definition go_scatter (lists : scatter) : result scatter :=
  if bool_decide (Exists (λ colour, colour = None) (sc_color lists))
  then Raise ValueError else Ok lists.

(** [show_network_map]: the loop over the nodes, then the scatter trace
    built from the four lists.  The calls that only display (subheader,
    layout, plotly_chart) are left out. *)
Definition show_network_map (pressure_df : frame)
    (wn_nodes : list (string * option (num * num))) (timestep : Z)
    : result scatter :=
  lists ← for_each (map_node pressure_df timestep) wn_nodes
             (Scatter [] [] [] []);
  go_scatter lists.

(** [show_results_graph]: the traces added to the figure, name and series. *)
Definition show_results_graph (pressure_df : frame)
    (selected_nodes : list string) : list (string * list num) :=
  foldl (λ fig node,
           if bool_decide (node ∈ columns pressure_df) then
             match column pressure_df node with
             | Some series => fig ++ [(node, series)]
             | None => fig  (* not reached: the name is a column *)
             end
           else fig)
        [] selected_nodes.

(** [pressure_df[selected_nodes]], the table [show_results_table] displays
    and offers for download; [None] stands for the KeyError pandas raises
    when a selected name is not a column. *)
Definition show_results_table (pressure_df : frame)
    (selected_nodes : list string) : option frame :=
  mapM (λ node, series ← column pressure_df node; Some (node, series))
       selected_nodes.

End Results.

(** The identifiers registered on a recorded network: those of the
    [addTank] and [addNode] calls. *)
Definition registered {num : Type} (net : list (call num)) : list cell :=
  omap (λ c, match c with
             | AddTank id _ _ _ | AddNode id _ _ _ => Some id
             | _ => None
             end) net.

(** ** Export and re-import *)

Section Roundtrip.
Context {num : Type}.
(** The base demand the parsed network reports for a junction to which no
    demand was attached. *)
Context (no_demand : num).

(** Modelled from the spec: the network epanettools parses back from the
    file [net.writeInputFile] wrote; writer and parser belong to the
    epanettools library, which is not among the sources.  The spec asks
    that the records written "round-trip identically into
    nodes/pipes/demands in the solver's own parse": a node registered as
    tank comes back as a node of type Tank, a regular node as a junction,
    each with its identifier and elevation; a pipe comes back as a link of
    type Pipe between the nodes named by its ends; and a junction carries
    as base demand the demand attached to it. *)
Definition written_node (c : call num) : option (lib_node num) :=
  match c with
  | AddTank id _ _ elevation => Some (LibNode "Tank" (fmt id) elevation)
  | AddNode id _ _ elevation => Some (LibNode "Junction" (fmt id) elevation)
  | _ => None
  end.

(** Modelled from the spec: the parsed node a pipe end names, the end
    nodes of links being absent from the sources like the rest of the
    parser. *)
Definition node_named (nodes : list (lib_node num)) (id : cell)
    : option (lib_node num) :=
  head (filter (λ node, node_id node = fmt id) nodes).

(** Modelled from the spec: a registered pipe as the parser returns it; a
    pipe whose end names no registered node is outside the contract and is
    not written. *)
Definition written_link (nodes : list (lib_node num)) (c : call num)
    : option (lib_link num) :=
  match c with
  | AddPipe id a b length diameter roughness =>
      start ← node_named nodes a;
      finish ← node_named nodes b;
      Some (LibLink "Pipe" (fmt id) start finish length diameter roughness)
  | _ => None
  end.

(** Modelled from the spec: the base demand of a junction of the parsed
    network, the demand attached to it by [addDemand]. *)
Definition attached_demand (net : list (call num)) (n : string) : num :=
  default no_demand
    (head (omap (λ c, match c with
                      | AddDemand m rate _ =>
                          if bool_decide (m = n) then Some rate else None
                      | _ => None
                      end) net)).

(** Modelled from the spec: a regular node as an element of the junctions
    collection of the parsed network. *)
Definition written_junction (net : list (call num)) (c : call num)
    : option (lib_junction num) :=
  match c with
  | AddNode id _ _ _ =>
      Some (LibJunction (fmt id) (attached_demand net (fmt id)))
  | _ => None
  end.

(** Modelled from the spec: the network parsed back from the export of an
    assembled model, absent from the sources with writer and parser. *)
Definition written_network (net : list (call num)) : lib_network num :=
  LibNetwork (omap written_node net)
             (omap (written_link (omap written_node net)) net)
             (omap (written_junction net) net).

End Roundtrip.

(** ** Concrete tables *)

Definition q (n : Z) (d : positive) : Q := Qmake n d.

(** The minimal network: nodes A and B, pipe P1 from A to B, a demand at B. *)
Definition nodes_min : list (node_row Q) :=
  [NodeRow (Some "node") (Some "A") (q 0 1) (q 0 1) (q 10 1);
   NodeRow (Some "node") (Some "B") (q 0 1) (q 0 1) (q 5 1)].
Definition pipes_min : list (pipe_row Q) :=
  [PipeRow (Some "P1") (Some "A") (Some "B") (q 100 1) (q 200 1) (q 100 1)].
Definition demands_min : list (demand_row Q) :=
  [DemandRow (Some "B") (q 1 100)].

(** A demand row whose node reference cell is empty. *)
Definition demand_blank : demand_row Q := DemandRow None (q 3 100).

(** Two records sharing the identifier N1, a tank and a junction, in both
    orders. *)
Definition tank_N1 : node_row Q :=
  NodeRow (Some "tank") (Some "N1") (q 0 1) (q 0 1) (q 10 1).
Definition node_N1 : node_row Q :=
  NodeRow (Some "node") (Some "N1") (q 0 1) (q 0 1) (q 10 1).
Definition node_blank : node_row Q :=
  NodeRow (Some "node") None (q 0 1) (q 0 1) (q 10 1).

(** A pipe into a node that does not exist. *)
Definition pipe_to_N99 : pipe_row Q :=
  PipeRow (Some "P1") (Some "N1") (Some "N99") (q 100 1) (q 200 1) (q 100 1).

(** What epanettools reads from a file holding the minimal network with a
    tank T and a pump between B and T. *)
Definition lib_A : lib_node Q := LibNode "Junction" "A" (q 10 1).
Definition lib_B : lib_node Q := LibNode "Junction" "B" (q 5 1).
Definition lib_T : lib_node Q := LibNode "Tank" "T" (q 20 1).
Definition network_sample : lib_network Q :=
  LibNetwork [lib_A; lib_B; lib_T]
    [LibLink "Pipe" "P1" lib_A lib_B (q 100 1) (q 200 1) (q 100 1);
     LibLink "Pump" "PU" lib_B lib_T (q 0 1) (q 0 1) (q 0 1)]
    [LibJunction "A" (q 0 1); LibJunction "B" (q 1 100)].

Definition fs_empty : fs := Fs ∅ ∅.
Definition mktemp_sample (st : fs) : string := "/tmp/tmpk3v9".
Definition upload_sample : bytes := [Byte.x5b; Byte.x50; Byte.x5d].
Definition read_inp_sample (text : bytes) : result (lib_network Q) :=
  Ok network_sample.
Definition read_inp_failing (text : bytes) : result (lib_network Q) :=
  Raise (LibError "cannot open input file").

(** Two pipes whose identifier cell is empty. *)
Definition pipe_blank_AB : pipe_row Q :=
  PipeRow None (Some "A") (Some "B") (q 100 1) (q 200 1) (q 100 1).
Definition pipe_blank_BA : pipe_row Q :=
  PipeRow None (Some "B") (Some "A") (q 100 1) (q 200 1) (q 100 1).

(** The minimal network with its nodes placed anywhere. *)
Definition nodes_min_at (xa ya xb yb : Q) : list (node_row Q) :=
  [NodeRow (Some "node") (Some "A") xa ya (q 10 1);
   NodeRow (Some "node") (Some "B") xb yb (q 5 1)].

(** The calls [create_network] makes for the minimal network, a writer,
    and a parser that reads the written network back. *)
Definition calls_min : list (call Q) :=
  [AddNode (Some "A") (q 0 1) (q 0 1) (q 10 1);
   AddNode (Some "B") (q 0 1) (q 0 1) (q 5 1);
   AddPipe (Some "P1") (Some "A") (Some "B") (q 100 1) (q 200 1) (q 100 1);
   AddDemand "B" (q 1 100) "BASE"].
Definition write_inp_sample (net : list (call Q)) : bytes := upload_sample.
Definition read_inp_written (text : bytes) : result (lib_network Q) :=
  Ok (written_network (q 0 1) calls_min).

(** A demand at a node that is not in the table. *)
Definition demand_unknown : demand_row Q := DemandRow (Some "Q7") (q 1 50).

(** Two pipes under the same identifier, the second one dangling. *)
Definition pipes_twice : list (pipe_row Q) :=
  [PipeRow (Some "P1") (Some "A") (Some "B") (q 100 1) (q 200 1) (q 100 1);
   PipeRow (Some "P1") (Some "B") None (q 50 1) (q 200 1) (q 100 1)].


(** A network in which junction C hangs on a pump only. *)
Definition lib_C : lib_node Q := LibNode "Junction" "C" (q 7 1).
Definition network_pumped : lib_network Q :=
  LibNetwork [lib_A; lib_B; lib_C]
    [LibLink "Pipe" "P1" lib_A lib_B (q 100 1) (q 200 1) (q 100 1);
     LibLink "Pump" "PU" lib_B lib_C (q 0 1) (q 0 1) (q 0 1)]
    [LibJunction "A" (q 0 1); LibJunction "B" (q 1 100);
     LibJunction "C" (q 0 1)].

(** Pressures of A and B over two time steps, and the nodes of the solved
    network: A with coordinates, B and T without. *)
Definition pressure_sample : list (string * list Q) :=
  [("A", [q 30 1; q 29 1]); ("B", [q 25 1; q 24 1])].
Definition wn_nodes_sample : list (string * option (Q * Q)) :=
  [("A", Some (q 1 1, q 2 1)); ("B", None); ("T", None)].
Definition wn_nodes_solved : list (string * option (Q * Q)) :=
  [("A", Some (q 1 1, q 2 1)); ("B", None)].


(** * Properties *)

(** ** Sequencing *)

Lemma bind_Ok {A B : Type} (a : A) (f : A → result B) : Ok a ≫= f = f a.
Proof. reflexivity. Qed.

Lemma bind_Raise {A B : Type} (e : exn) (f : A → result B) :
  Raise e ≫= f = Raise e.
Proof. reflexivity. Qed.

(** ** Columns: dropna, duplicated, unique, join *)

Lemma elem_of_dropna (s : list cell) (x : string) :
  x ∈ dropna s ↔ Some x ∈ s.
Proof.
  unfold dropna. rewrite list_elem_of_omap. split.
  - intros (c & Hc & Hx). simpl in Hx. by subst.
  - intros H. by exists (Some x).
Qed.

Lemma cell_in_true (c : cell) (s : list cell) :
  cell_in c (dropna s) = true ↔ ∃ x, c = Some x ∧ Some x ∈ s.
Proof.
  destruct c as [x|]; simpl.
  - rewrite bool_decide_eq_true, elem_of_dropna. split.
    + intros H. by exists x.
    + by intros (y & [= ->] & H).
  - split; [done|]. by intros (y & [=] & _).
Qed.

Lemma mask_duplicated_from_nil (seen s : list cell) :
  NoDup s → (∀ c, c ∈ s → c ∉ seen) → mask s (duplicated_from seen s) = [].
Proof.
  intros Hnd. revert seen.
  induction Hnd as [|c s Hc Hnd IH]; intros seen Hseen; simpl; [done|].
  rewrite bool_decide_eq_false_2 by (apply Hseen; left).
  apply IH. intros c' Hc' [->|Hin]%elem_of_cons; [done|].
  by apply (Hseen c'); [right|].
Qed.

Lemma occurrences_cons (c a : cell) (s : list cell) :
  occurrences c (a :: s) = (if decide (a = c) then 1 else 0) + occurrences c s.
Proof. unfold occurrences. rewrite filter_cons. by case_decide. Qed.

Lemma occurrences_pos (c : cell) (s : list cell) :
  1 ≤ occurrences c s ↔ c ∈ s.
Proof.
  induction s as [|a s IH].
  - split; [cbn; lia|by intros ?%elem_of_nil].
  - rewrite occurrences_cons, elem_of_cons. case_decide; subst.
    + split; [by left|simpl; lia].
    + simpl. rewrite IH. split; [by right|]. by intros [->|?].
Qed.

Lemma elem_of_mask_duplicated_from (seen s : list cell) (c : cell) :
  c ∈ mask s (duplicated_from seen s) ↔
  c ∈ s ∧ (c ∈ seen ∨ 2 ≤ occurrences c s).
Proof.
  revert seen. induction s as [|a s IH]; intros seen; simpl.
  - split; [by intros ?%elem_of_nil|by intros [?%elem_of_nil _]].
  - rewrite occurrences_cons.
    assert (c ∈ mask s (duplicated_from (a :: seen) s) ↔
            c ∈ s ∧ (c = a ∨ c ∈ seen ∨ 2 ≤ occurrences c s)) as IH'.
    { rewrite IH, elem_of_cons. tauto. }
    assert ((c ∈ s ∧ 1 ≤ occurrences c s) ∨ (¬ c ∈ s ∧ occurrences c s = 0))
      as [[Hin Hocc]|[Hin Hocc]].
    { pose proof (occurrences_pos c s) as Hpos.
      destruct (decide (c ∈ s)); [left|right]; split; try tauto.
      destruct (occurrences c s); [done|]. exfalso. apply n. apply Hpos. lia. }
    all: clear IH.
    all:     case_bool_decide as Ha; [rewrite elem_of_cons|];
      rewrite IH', elem_of_cons; case_decide; subst; simpl; split;
      intros; intuition (subst; try lia; try tauto).
Qed.



Lemma elem_of_unique_from (seen s : list cell) (c : cell) :
  c ∈ unique_from seen s ↔ c ∈ s ∧ c ∉ seen.
Proof.
  revert seen. induction s as [|a s IH]; intros seen; simpl.
  - split; [by intros ?%elem_of_nil|by intros [?%elem_of_nil _]].
  - case_bool_decide as Ha.
    + rewrite IH, elem_of_cons. split; [tauto|].
      intros [[->|?] ?]; tauto.
    + rewrite elem_of_cons, IH, not_elem_of_cons, elem_of_cons.
      destruct (decide (c = a)) as [->|?]; tauto.
Qed.

Lemma NoDup_unique_from (seen s : list cell) : NoDup (unique_from seen s).
Proof.
  revert seen. induction s as [|a s IH]; intros seen; simpl.
  - constructor.
  - case_bool_decide; [done|]. constructor; [|done].
    rewrite elem_of_unique_from. intros [_ Hn]. apply Hn. left.
Qed.

Lemma mapM_id_present (l : list cell) :
  None ∉ l → mapM id l = Some (dropna l).
Proof.
  induction l as [|[x|] l IH]; intros Hl.
  - done.
  - assert (None ∉ l) as Hl' by (intros ?; apply Hl; by right).
    specialize (IH Hl'). cbn. by rewrite IH.
  - exfalso. apply Hl. left.
Qed.

Lemma mapM_id_missing (l : list cell) : None ∈ l → mapM id l = None.
Proof.
  induction l as [|[x|] l IH]; [by intros ?%elem_of_nil| |done].
  intros [?|Hl]%elem_of_cons; [done|]. cbn. by rewrite (IH Hl).
Qed.

Lemma join_Ok (sep : string) (l : list cell) :
  None ∉ l → join sep l = Ok (concat_with sep (dropna l)).
Proof. intros Hl. unfold join. by rewrite mapM_id_present. Qed.

Lemma join_Raise (sep : string) (l : list cell) :
  None ∈ l → join sep l = Raise TypeError.
Proof. intros Hl. unfold join. by rewrite mapM_id_missing. Qed.

(** A missing identifier is among the marked duplicates exactly when the
    column has two or more missing cells. *)
Lemma missing_duplicated (ids : list cell) :
  None ∈ mask ids (duplicated ids) ↔ 2 ≤ missing_count ids.
Proof.
  unfold duplicated, missing_count. split.
  - intros [_ [?%elem_of_nil|H]]%elem_of_mask_duplicated_from; done.
  - intros H. apply elem_of_mask_duplicated_from. split; [|by right].
    apply occurrences_pos. lia.
Qed.

(** ** The duplicate checks *)

Section Validation.
Context {num : Type}.
Implicit Types (nodes_df : list (node_row num)) (pipes_df : list (pipe_row num))
  (demands_df : list (demand_row num)) (acc : report).

Lemma check_duplicates_NoDup msg hint (ids : list cell) acc :
  NoDup ids → check_duplicates msg hint ids acc = Ok acc.
Proof.
  intros Hnd. unfold check_duplicates, duplicated. destruct acc as [e s].
  rewrite mask_duplicated_from_nil; [done|done|].
  intros c _ ?%elem_of_nil. done.
Qed.

Lemma check_duplicates_Raise msg hint (ids : list cell) acc :
  2 ≤ missing_count ids → check_duplicates msg hint ids acc = Raise TypeError.
Proof.
  intros H%missing_duplicated. unfold check_duplicates. destruct acc as [e s].
  destruct (mask ids (duplicated ids)) as [|c l] eqn:Hm;
    [by apply elem_of_nil in H|].
  simpl negb. cbv iota. rewrite join_Raise; [done|].
  apply elem_of_unique_from. split; [done|]. by intros ?%elem_of_nil.
Qed.

(** When at most one identifier is missing the check returns, having
    appended nothing or one message with its suggestion. *)
Lemma check_duplicates_Ok msg hint (ids : list cell) (e s : list string) :
  missing_count ids ≤ 1 →
  check_duplicates msg hint ids (e, s)
    = Ok (e ++ duplicate_errors msg ids, s ++ duplicate_hints hint ids).
Proof.
  intros Hc. unfold check_duplicates, duplicate_errors, duplicate_hints.
  destruct (mask ids (duplicated ids)) as [|c l] eqn:Hm.
  - simpl. by rewrite !app_nil_r.
  - simpl negb. cbv iota. rewrite join_Ok; [done|].
    intros [Hin _]%elem_of_unique_from. rewrite <-Hm in Hin.
    apply missing_duplicated in Hin. lia.
Qed.

Lemma check_duplicates_paired msg hint (ids : list cell) acc acc' :
  check_duplicates msg hint ids acc = Ok acc' → paired acc → paired acc'.
Proof.
  unfold check_duplicates, paired. destruct acc as [e s].
  destruct (negb _); [|by intros [= <-]].
  destruct (join _ _) as [str|]; [|done]. cbn. intros [= <-]. simpl.
  rewrite !length_app. simpl. lia.
Qed.


(** ** The loops over pipes and demand references *)

Lemma check_pipe_appends (node_ids : list string) (e s : list string)
    (row : pipe_row num) :
  check_pipe node_ids (e, s) row
    = (e ++ pipe_errors node_ids row, s ++ pipe_hints node_ids row).
Proof.
  unfold check_pipe, pipe_errors, pipe_hints.
  destruct (cell_in (pp_from row) node_ids), (cell_in (pp_to row) node_ids);
    simpl; by rewrite ?app_nil_r, <-?app_assoc.
Qed.

Lemma check_demand_appends (node_ids : list string) (e s : list string)
    (node : string) :
  check_demand node_ids (e, s) node
    = (e ++ demand_errors node_ids node, s ++ demand_hints node_ids node).
Proof.
  unfold check_demand, demand_errors, demand_hints.
  destruct (bool_decide (node ∈ node_ids)); simpl; by rewrite ?app_nil_r.
Qed.

(** A loop whose body appends to both lists appends the concatenation of
    what each iteration contributes. *)
Lemma foldl_appends {A : Type} (step : report → A → report)
    (errs hints : A → list string) (l : list A) (e s : list string) :
  (∀ e s x, step (e, s) x = (e ++ errs x, s ++ hints x)) →
  foldl step (e, s) l = (e ++ concat (errs <$> l), s ++ concat (hints <$> l)).
Proof.
  intros Hstep. revert e s.
  induction l as [|x l IH]; intros e s; simpl.
  - by rewrite !app_nil_r.
  - by rewrite Hstep, IH, <-!app_assoc.
Qed.

(** ** The connectivity check *)

Lemma keep_if_total {A : Type} (p : A → result bool) (q : A → Prop)
    `{∀ x, Decision (q x)} (l : list A) :
  (∀ x, x ∈ l → p x = Ok (bool_decide (q x))) →
  keep_if p l = Ok (filter q l).
Proof.
  induction l as [|x l IH]; intros Hp; simpl; [done|].
  rewrite Hp by left. cbn. rewrite IH by (intros y Hy; apply Hp; by right).
  cbn. unfold bool_decide, decide. by destruct (H x).
Qed.

(** The lookup of the type of an identifier of the table finds a row: the
    first one carrying it. *)
Lemma first_type_first nodes_df (pre post : list (node_row num))
    (r : node_row num) (n : string) :
  nodes_df = pre ++ r :: post → nd_id r = Some n →
  (∀ r', r' ∈ pre → nd_id r' ≠ Some n) →
  first_type nodes_df n = Ok (nd_type r).
Proof.
  intros -> Hr Hpre. unfold first_type.
  rewrite filter_app, filter_cons_True by done.
  replace (filter (λ r0, nd_id r0 = Some n) pre) with (@nil (node_row num));
    [done|].
  symmetry. clear Hr. induction pre as [|a pre IH]; [done|].
  rewrite filter_cons_False by (apply Hpre; left).
  apply IH. intros r' Hr'. apply Hpre. by right.
Qed.

Lemma first_type_found nodes_df (n : string) :
  Some n ∈ nd_id <$> nodes_df →
  ∃ r, r ∈ nodes_df ∧ nd_id r = Some n ∧ first_type nodes_df n = Ok (nd_type r).
Proof.
  intros (r & Hr & Hin)%list_elem_of_fmap. unfold first_type.
  destruct (filter (λ r0, nd_id r0 = Some n) nodes_df) as [|r0 l] eqn:Hf.
  - exfalso. by eapply (filter_nil_not_elem_of _ _ r Hf).
  - assert (r0 ∈ filter (λ r0, nd_id r0 = Some n) nodes_df) as H0
      by (rewrite Hf; left).
    apply list_elem_of_filter in H0 as [? ?]. by exists r0.
Qed.

Lemma is_isolated_total nodes_df pipes_df (n : string) :
  n ∈ dropna (nd_id <$> nodes_df) →
  is_isolated nodes_df (connected_set pipes_df) n
    = Ok (bool_decide ((Some n ∉ connected_set pipes_df)
                       ∧ (first_type nodes_df n ≠ Ok (Some "tank")))).
Proof.
  intros Hn%elem_of_dropna. unfold is_isolated.
  destruct (first_type_found _ _ Hn) as (r & _ & _ & ->).
  case_bool_decide as Hc; cbn.
  - f_equal. apply bool_decide_ext. split.
    + intros Ht. split; [done|]. by intros [= ?].
    + intros [_ Ht] Heq. apply Ht. by rewrite Heq.
  - symmetry. f_equal. apply bool_decide_eq_false_2. tauto.
Qed.

(** The comprehension never raises. *)
Lemma isolated_nodes_Ok nodes_df pipes_df :
  isolated_nodes nodes_df pipes_df = Ok (isolated_list nodes_df pipes_df).
Proof.
  unfold isolated_nodes, isolated_list.
  apply (keep_if_total _ (λ n, (Some n ∉ connected_set pipes_df)
                               ∧ (first_type nodes_df n ≠ Ok (Some "tank")))).
  intros n Hn. by apply is_isolated_total.
Qed.

(** ** The whole function *)

(** [validate_network] returns when neither identifier column has two
    missing cells, and then the report is the concatenation of what the
    five checks contribute. *)
Lemma validate_network_Ok nodes_df pipes_df demands_df :
  missing_count (nd_id <$> nodes_df) ≤ 1 →
  missing_count (pp_id <$> pipes_df) ≤ 1 →
  validate_network nodes_df pipes_df demands_df
    = Ok (expected_errors nodes_df pipes_df demands_df,
          expected_hints nodes_df pipes_df demands_df).
Proof.
  intros Hn Hp. unfold validate_network, expected_errors, expected_hints.
  cbv zeta. rewrite check_duplicates_Ok, bind_Ok by done.
  rewrite check_duplicates_Ok, bind_Ok by done.
  rewrite (foldl_appends _ _ _ _ _ _ (check_pipe_appends _)).
  rewrite (foldl_appends _ _ _ _ _ _ (check_demand_appends _)).
  rewrite isolated_nodes_Ok, bind_Ok.
  unfold isolated_errors, isolated_hints.
  destruct (isolated_list nodes_df pipes_df); simpl;
    by rewrite ?app_nil_r, <-?app_assoc.
Qed.

(** Otherwise joining the duplicates meets a NaN and TypeError escapes. *)
Lemma validate_network_Raise nodes_df pipes_df demands_df :
  2 ≤ missing_count (nd_id <$> nodes_df) ∨
  2 ≤ missing_count (pp_id <$> pipes_df) →
  validate_network nodes_df pipes_df demands_df = Raise TypeError.
Proof.
  intros H. unfold validate_network. cbv zeta.
  destruct (decide (2 ≤ missing_count (nd_id <$> nodes_df))) as [Hn|Hn].
  - by rewrite check_duplicates_Raise.
  - destruct H as [?|Hp]; [done|].
    rewrite check_duplicates_Ok, bind_Ok by lia.
    by rewrite check_duplicates_Raise.
Qed.

End Validation.

(** * Properties of the specification *)

Section Properties.
Context {num : Type}.
Implicit Types (nodes_df : list (node_row num)) (pipes_df : list (pipe_row num))
  (demands_df : list (demand_row num)).

Lemma concat_fmap_nil {A B : Type} (f : A → list B) (l : list A) :
  (∀ x, x ∈ l → f x = []) → concat (f <$> l) = [].
Proof.
  induction l as [|x l IH]; intros Hf; simpl; [done|].
  rewrite Hf by left. simpl. apply IH. intros y Hy. apply Hf. by right.
Qed.

Lemma filter_none {A : Type} (P : A → Prop) `{∀ x, Decision (P x)}
    (l : list A) :
  (∀ x, x ∈ l → ¬ P x) → filter P l = [].
Proof.
  induction l as [|x l IH]; intros HP; [done|].
  rewrite filter_cons_False by (apply HP; left).
  apply IH. intros y Hy. apply HP. by right.
Qed.

Lemma elem_of_connected_set pipes_df (c : cell) :
  c ∈ connected_set pipes_df ↔
  ∃ p, p ∈ pipes_df ∧ (pp_from p = c ∨ pp_to p = c).
Proof.
  unfold connected_set.
  rewrite elem_of_union, !elem_of_list_to_set, !list_elem_of_fmap. split.
  - intros [(p & -> & Hp)|(p & -> & Hp)]; exists p; tauto.
  - intros (p & Hp & [<-|<-]); [left|right]; by exists p.
Qed.

(** C1. Tables in which no value of an id column occurs twice, every pipe
    end and every present demand reference names a node of the table, and
    every node that is not a tank is an end of some pipe, validate with an
    empty error list (and an empty suggestion list). *)
Theorem validate_network_accepts nodes_df pipes_df demands_df :
  NoDup (nd_id <$> nodes_df) →
  NoDup (pp_id <$> pipes_df) →
  (∀ p, p ∈ pipes_df →
     ∃ a b, pp_from p = Some a ∧ pp_to p = Some b ∧
            Some a ∈ nd_id <$> nodes_df ∧ Some b ∈ nd_id <$> nodes_df) →
  (∀ d n, d ∈ demands_df → dm_node_id d = Some n →
     Some n ∈ nd_id <$> nodes_df) →
  (∀ r n, r ∈ nodes_df → nd_id r = Some n → nd_type r ≠ Some "tank" →
     ∃ p, p ∈ pipes_df ∧ (pp_from p = Some n ∨ pp_to p = Some n)) →
  validate_network nodes_df pipes_df demands_df = Ok ([], []).
Proof.
  intros Hnodes Hpipes Hends Hdemands Htouched.
  unfold validate_network. cbv zeta.
  rewrite check_duplicates_NoDup, bind_Ok by done.
  rewrite check_duplicates_NoDup, bind_Ok by done.
  rewrite (foldl_appends _ _ _ _ _ _ (check_pipe_appends _)).
  rewrite (foldl_appends _ _ _ _ _ _ (check_demand_appends _)).
  rewrite isolated_nodes_Ok, bind_Ok.
  assert (∀ p, p ∈ pipes_df →
            cell_in (pp_from p) (dropna (nd_id <$> nodes_df)) = true ∧
            cell_in (pp_to p) (dropna (nd_id <$> nodes_df)) = true) as Hin.
  { intros p Hp. destruct (Hends p Hp) as (a & b & Ha & Hb & Hina & Hinb).
    split; apply cell_in_true; [by exists a|by exists b]. }
  assert (∀ n, n ∈ dropna (dm_node_id <$> demands_df) →
            bool_decide (n ∈ dropna (nd_id <$> nodes_df)) = true) as Hdem.
  { intros n (c & Hc & Hn)%list_elem_of_omap.
    apply list_elem_of_fmap in Hc as (d & -> & Hd). simpl in Hn.
    apply bool_decide_eq_true_2, elem_of_dropna. by eapply Hdemands. }
  rewrite (concat_fmap_nil (pipe_errors _)), (concat_fmap_nil (pipe_hints _)).
  2, 3: intros p [Hfrom Hto]%Hin;
        unfold pipe_errors, pipe_hints; by rewrite Hfrom, Hto.
  rewrite (concat_fmap_nil (demand_errors _)),
    (concat_fmap_nil (demand_hints _)).
  2, 3: intros n Hn%Hdem; unfold demand_errors, demand_hints; by rewrite Hn.
  unfold isolated_list. rewrite filter_none; [done|].
  intros n Hn%elem_of_dropna [Hfree Hkind].
  destruct (first_type_found _ _ Hn) as (r & Hr & Hid & Hty).
  apply Hfree, elem_of_connected_set.
  apply (Htouched r n Hr Hid). intros Htank. apply Hkind.
  by rewrite Hty, Htank.
Qed.


(** ** Assembly *)

Lemma for_each_app {S A : Type} (body : S → A → result S) (l1 l2 : list A)
    (s : S) :
  for_each body (l1 ++ l2) s = for_each body l1 s ≫= for_each body l2.
Proof.
  revert s. induction l1 as [|x l1 IH]; intros s; simpl; [done|].
  destruct (body s x) as [s'|e]; [|done]. rewrite !bind_Ok. apply IH.
Qed.

Lemma for_each_appends {A C : Type} (body : list C → A → result (list C))
    (f : A → list C) (l : list A) (s : list C) :
  (∀ s x, body s x = Ok (s ++ f x)) →
  for_each body l s = Ok (s ++ concat (f <$> l)).
Proof.
  intros Hbody. revert s. induction l as [|x l IH]; intros s; simpl.
  - by rewrite app_nil_r.
  - by rewrite Hbody, bind_Ok, IH, <-app_assoc.
Qed.

Lemma concat_singletons {A B : Type} (f : A → B) (l : list A) :
  concat ((λ x, [f x]) <$> l) = f <$> l.
Proof. induction l as [|x l IH]; [done|]. cbn. f_equal. exact IH. Qed.

(** A row without a node reference leaves the object as it is. *)
Lemma add_demand_row_missing {Net : Type} `{!NetworkLib num Net}
    (net : Net) (row : demand_row num) :
  dm_node_id row = None → add_demand_row net row = Ok net.
Proof. intros H. unfold add_demand_row. by rewrite H. Qed.

Lemma for_each_demand_missing {Net : Type} `{!NetworkLib num Net}
    (before after : list (demand_row num)) (row : demand_row num) (net : Net) :
  dm_node_id row = None →
  for_each add_demand_row (before ++ row :: after) net
    = for_each add_demand_row (before ++ after) net.
Proof.
  intros H. rewrite !for_each_app.
  destruct (for_each add_demand_row before net) as [net'|e]; [|done].
  rewrite !bind_Ok. simpl. by rewrite add_demand_row_missing, bind_Ok.
Qed.

(** On the recording network the calls are those of the rows, table by
    table. *)
Lemma create_network_recorded nodes_df pipes_df demands_df :
  create_network (Net := list (call num)) nodes_df pipes_df demands_df
    = Ok ((node_call <$> nodes_df) ++ (pipe_call <$> pipes_df)
          ++ concat (demand_calls <$> demands_df)).
Proof.
  unfold create_network. cbv zeta.
  rewrite (for_each_appends _ (λ row, [node_call row])), bind_Ok.
  2: { intros s x. unfold add_node_row, node_call. by case_bool_decide. }
  rewrite (for_each_appends _ (λ row, [pipe_call row])), bind_Ok by done.
  rewrite (for_each_appends _ demand_calls), bind_Ok.
  2: { intros s x. unfold add_demand_row, demand_calls.
       destruct (dm_node_id x); simpl; by rewrite ?app_nil_r. }
  by rewrite !concat_singletons, app_nil_l, <-app_assoc.
Qed.

Lemma demand_set_app (net1 net2 : list (call num)) :
  demand_set (net1 ++ net2) = demand_set net1 ++ demand_set net2.
Proof. apply omap_app. Qed.

Lemma demand_set_nodes nodes_df : demand_set (node_call <$> nodes_df) = [].
Proof.
  induction nodes_df as [|x l IH]; [done|]. unfold node_call at 1. simpl.
  case_bool_decide; apply IH.
Qed.

Lemma demand_set_pipes pipes_df : demand_set (pipe_call <$> pipes_df) = [].
Proof. induction pipes_df as [|x l IH]; [done|]. apply IH. Qed.

Lemma demand_set_demands demands_df :
  demand_set (concat (demand_calls <$> demands_df)) = present_demands demands_df.
Proof.
  induction demands_df as [|x l IH]; [done|].
  rewrite fmap_cons, concat_cons, demand_set_app, IH.
  unfold present_demands, demand_calls. simpl.
  by destruct (dm_node_id x).
Qed.

Lemma dropna_missing (before after : list cell) :
  dropna (before ++ None :: after) = dropna (before ++ after).
Proof. unfold dropna. by rewrite !omap_app. Qed.

(** C2. A demand row whose node reference is missing (an empty cell) is
    skipped: validation of the tables gives the same outcome as without the
    row, so no error stems from it; [create_network] makes the same calls
    on the network object as without the row, whatever the object does; and
    on the recording network the demand set holds exactly the demands of
    the other rows with a reference. *)
Theorem missing_demand_reference_skipped nodes_df pipes_df
    (before after : list (demand_row num)) (row : demand_row num) :
  dm_node_id row = None →
  validate_network nodes_df pipes_df (before ++ row :: after)
    = validate_network nodes_df pipes_df (before ++ after)
  ∧ (∀ (Net : Type) (lib : NetworkLib num Net),
       create_network (Net := Net) nodes_df pipes_df (before ++ row :: after)
       = create_network nodes_df pipes_df (before ++ after))
  ∧ ∃ net : list (call num),
      create_network nodes_df pipes_df (before ++ row :: after) = Ok net ∧
      demand_set net = present_demands (before ++ after).
Proof.
  intros Hrow. split; [|split].
  - unfold validate_network. cbv zeta.
    by rewrite !fmap_app, !fmap_cons, Hrow, dropna_missing.
  - intros Net lib. unfold create_network. cbv zeta.
    destruct (for_each add_node_row nodes_df Network) as [net1|e]; [|done].
    rewrite !bind_Ok.
    destruct (for_each add_pipe_row pipes_df net1) as [net2|e]; [|done].
    rewrite !bind_Ok. by rewrite for_each_demand_missing.
  - eexists. split; [apply create_network_recorded|].
    rewrite !demand_set_app, demand_set_nodes, demand_set_pipes,
      demand_set_demands. simpl.
    unfold present_demands. rewrite !omap_app. simpl. by rewrite Hrow.
Qed.


(** ** Isolated nodes *)

Lemma elem_of_isolated_list nodes_df pipes_df (n : string) :
  n ∈ isolated_list nodes_df pipes_df ↔
  Some n ∈ nd_id <$> nodes_df ∧
  (∀ p, p ∈ pipes_df → pp_from p ≠ Some n ∧ pp_to p ≠ Some n) ∧
  first_type nodes_df n ≠ Ok (Some "tank").
Proof.
  unfold isolated_list.
  rewrite list_elem_of_filter, elem_of_dropna, elem_of_connected_set. split.
  - intros [[Hfree Hkind] Hin]. split; [done|]. split; [|done].
    intros p Hp. split; intros H; apply Hfree; exists p; tauto.
  - intros (Hin & Hfree & Hkind). split; [|done]. split; [|done].
    intros (p & Hp & Hends). destruct (Hfree p Hp). tauto.
Qed.

Lemma isolated_msg_reported nodes_df pipes_df demands_df :
  isolated_list nodes_df pipes_df ≠ [] →
  isolated_msg (isolated_list nodes_df pipes_df)
    ∈ expected_errors nodes_df pipes_df demands_df.
Proof.
  intros Hne. unfold expected_errors. cbv zeta.
  rewrite !elem_of_app. do 4 right. unfold isolated_errors.
  destruct (isolated_list nodes_df pipes_df); [done|left].
Qed.

(** C3, as amended.  The connectivity check goes by identifier, and takes
    the kind of an identifier from the first record carrying it.  When the
    function returns and no pipe names [n] as an end: if the first record
    carrying [n] is not a tank, [n] is reported as isolated; with that
    record turned into a tank, all else equal, [n] is not reported. *)
Theorem isolated_decided_by_first_record (pre post : list (node_row num))
    (r : node_row num) pipes_df demands_df (n : string) :
  nd_id r = Some n →
  (∀ r', r' ∈ pre → nd_id r' ≠ Some n) →
  (∀ p, p ∈ pipes_df → pp_from p ≠ Some n ∧ pp_to p ≠ Some n) →
  missing_count (nd_id <$> pre ++ r :: post) ≤ 1 →
  missing_count (pp_id <$> pipes_df) ≤ 1 →
  (nd_type r ≠ Some "tank" →
     reported_isolated (pre ++ r :: post) pipes_df demands_df n)
  ∧ ¬ reported_isolated (pre ++ as_tank r :: post) pipes_df demands_df n.
Proof.
  intros Hid Hpre Hfree Hnodes Hpipes. split.
  - intros Hkind.
    assert (n ∈ isolated_list (pre ++ r :: post) pipes_df) as Hin.
    { apply elem_of_isolated_list. split; [|split; [done|]].
      - rewrite fmap_app, fmap_cons, Hid, elem_of_app, elem_of_cons. tauto.
      - rewrite (first_type_first _ pre post r n) by done. by intros [= ?]. }
    exists (isolated_list (pre ++ r :: post) pipes_df),
      (expected_errors (pre ++ r :: post) pipes_df demands_df),
      (expected_hints (pre ++ r :: post) pipes_df demands_df).
    split; [apply isolated_nodes_Ok|]. split; [done|].
    split; [by apply validate_network_Ok|].
    apply isolated_msg_reported. intros Hnil. rewrite Hnil in Hin.
    by apply elem_of_nil in Hin.
  - intros (isolated & errors & hints & Hiso & Hin & _).
    rewrite isolated_nodes_Ok in Hiso. injection Hiso as <-.
    apply elem_of_isolated_list in Hin as (_ & _ & Hkind). apply Hkind.
    by apply (first_type_first _ pre post (as_tank r) n).
Qed.

(** ** Shape of the report *)

(** Whenever the function returns, it returns the expected report. *)
Lemma validate_network_Ok_inv nodes_df pipes_df demands_df errors hints :
  validate_network nodes_df pipes_df demands_df = Ok (errors, hints) →
  missing_count (nd_id <$> nodes_df) ≤ 1 ∧
  missing_count (pp_id <$> pipes_df) ≤ 1 ∧
  errors = expected_errors nodes_df pipes_df demands_df ∧
  hints = expected_hints nodes_df pipes_df demands_df.
Proof.
  intros Hv.
  destruct (decide (2 ≤ missing_count (nd_id <$> nodes_df))) as [Hn|Hn];
    [by rewrite validate_network_Raise in Hv by (by left)|].
  destruct (decide (2 ≤ missing_count (pp_id <$> pipes_df))) as [Hp|Hp];
    [by rewrite validate_network_Raise in Hv by (by right)|].
  rewrite validate_network_Ok in Hv by lia. injection Hv as <- <-.
  repeat split; lia.
Qed.

Lemma length_concat_fmap {A B C : Type} (f : A → list B) (g : A → list C)
    (l : list A) :
  (∀ x, length (f x) = length (g x)) →
  length (concat (f <$> l)) = length (concat (g <$> l)).
Proof.
  intros Hfg. induction l as [|x l IH]; [done|].
  rewrite !fmap_cons, !concat_cons, !length_app, IH, Hfg. done.
Qed.

Lemma elem_of_concat_fmap {A B : Type} (f : A → list B) (l : list A)
    (a : A) (x : B) :
  a ∈ l → x ∈ f a → x ∈ concat (f <$> l).
Proof.
  intros Ha Hx. induction l as [|b l IH]; [by apply elem_of_nil in Ha|].
  rewrite fmap_cons, concat_cons, elem_of_app.
  apply elem_of_cons in Ha as [->|Ha]; [by left|right; by apply IH].
Qed.

Lemma NoDup_dropna (s : list cell) : NoDup s → NoDup (dropna s).
Proof.
  induction 1 as [|[x|] s Hx Hnd IH]; [constructor| |done].
  unfold dropna. cbn. constructor; [|done].
  by intros ?%elem_of_dropna.
Qed.

Lemma expected_paired nodes_df pipes_df demands_df :
  paired (expected_errors nodes_df pipes_df demands_df,
          expected_hints nodes_df pipes_df demands_df).
Proof.
  unfold paired, expected_errors, expected_hints. cbv zeta. simpl.
  rewrite !length_app. f_equal; [|f_equal; [|f_equal; [|f_equal]]].
  - unfold duplicate_errors, duplicate_hints. by destruct (mask _ _).
  - unfold duplicate_errors, duplicate_hints. by destruct (mask _ _).
  - apply length_concat_fmap. intros p. unfold pipe_errors, pipe_hints.
    by destruct (cell_in _ _), (cell_in _ _).
  - apply length_concat_fmap. intros n. unfold demand_errors, demand_hints.
    by destruct (bool_decide _).
  - unfold isolated_errors, isolated_hints. by destruct (isolated_list _ _).
Qed.

(** A pipe end that names no node of the table is reported, one message per
    end, in every report the function returns. *)
Lemma dangling_pipe_reported nodes_df pipes_df demands_df errors hints
    (p : pipe_row num) :
  validate_network nodes_df pipes_df demands_df = Ok (errors, hints) →
  p ∈ pipes_df →
  (cell_in (pp_from p) (dropna (nd_id <$> nodes_df)) = false →
     unknown_from_msg p ∈ errors) ∧
  (cell_in (pp_to p) (dropna (nd_id <$> nodes_df)) = false →
     unknown_to_msg p ∈ errors).
Proof.
  intros (_ & _ & -> & _)%validate_network_Ok_inv Hp.
  assert (∀ m, m ∈ pipe_errors (dropna (nd_id <$> nodes_df)) p →
               m ∈ expected_errors nodes_df pipes_df demands_df) as Hsub.
  { intros m Hm. unfold expected_errors. cbv zeta.
    rewrite !elem_of_app. right. right. left.
    by apply (elem_of_concat_fmap _ _ p). }
  split; intros Hc; apply Hsub; unfold pipe_errors; rewrite Hc;
    rewrite elem_of_app; [left|right]; left.
Qed.

(** When some node identifier is marked as a duplicate, the report the
    function returns starts with the one message about node duplicates, and
    the identifiers joined in it are pairwise distinct. *)
Lemma duplicate_nodes_reported nodes_df pipes_df demands_df errors hints :
  validate_network nodes_df pipes_df demands_df = Ok (errors, hints) →
  mask (nd_id <$> nodes_df) (duplicated (nd_id <$> nodes_df)) ≠ [] →
  ∃ listed rest,
    errors = duplicate_nodes_msg (concat_with ", " listed) :: rest ∧
    NoDup listed ∧
    (∀ n, n ∈ listed ↔ 2 ≤ occurrences (Some n) (nd_id <$> nodes_df)).
Proof.
  intros (_ & _ & -> & _)%validate_network_Ok_inv Hdup.
  unfold expected_errors. cbv zeta. unfold duplicate_errors at 1.
  destruct (mask (nd_id <$> nodes_df) (duplicated (nd_id <$> nodes_df)))
    as [|c l] eqn:Hm; [done|]. rewrite <-Hm.
  eexists _, _. split; [reflexivity|]. split.
  - apply NoDup_dropna, NoDup_unique_from.
  - intros n. rewrite elem_of_dropna. unfold unique, duplicated.
    rewrite elem_of_unique_from, elem_of_mask_duplicated_from.
    pose proof (occurrences_pos (Some n) (nd_id <$> nodes_df)) as Hpos.
    split.
    + intros [[_ [?%elem_of_nil|?]] _]; done.
    + intros H. split; [|by intros ?%elem_of_nil].
      split; [apply Hpos; lia|by right].
Qed.

(** C6. Whenever [validate_network] returns a pair, a suggestion is there
    only if an error is: non-empty suggestions come with non-empty errors,
    and empty errors with empty suggestions. *)
Theorem suggestions_only_with_errors nodes_df pipes_df demands_df
    (errors suggestions : list string) :
  validate_network nodes_df pipes_df demands_df = Ok (errors, suggestions) →
  (suggestions ≠ [] → errors ≠ []) ∧ (errors = [] → suggestions = []).
Proof.
  intros (_ & _ & -> & ->)%validate_network_Ok_inv.
  pose proof (expected_paired nodes_df pipes_df demands_df) as Hlen.
  unfold paired in Hlen. simpl in Hlen.
  split.
  - intros Hs He. rewrite He in Hlen. simpl in Hlen.
    by apply Hs, nil_length_inv.
  - intros He. rewrite He in Hlen. simpl in Hlen. by apply nil_length_inv.
Qed.

(** Every report the function returns pairs each error with one
    suggestion. *)
Lemma validate_network_paired nodes_df pipes_df demands_df
    (errors suggestions : list string) :
  validate_network nodes_df pipes_df demands_df = Ok (errors, suggestions) →
  length errors = length suggestions.
Proof.
  intros (_ & _ & -> & ->)%validate_network_Ok_inv. apply expected_paired.
Qed.

(** ** Import of an existing file *)

Lemma foldl_snoc_fmap {A B : Type} (f : A → B) (l : list A) (acc : list B) :
  foldl (λ acc x, acc ++ [f x]) acc l = acc ++ (f <$> l).
Proof.
  revert acc. induction l as [|x l IH]; intros acc; simpl.
  - by rewrite app_nil_r.
  - by rewrite IH, <-app_assoc.
Qed.

Lemma foldl_snoc_filter {A B : Type} (P : A → Prop) `{∀ x, Decision (P x)}
    (f : A → B) (l : list A) (acc : list B) :
  foldl (λ acc x, if bool_decide (P x) then acc ++ [f x] else acc) acc l
    = acc ++ (f <$> filter P l).
Proof.
  revert acc. induction l as [|x l IH]; intros acc; simpl.
  - by rewrite app_nil_r.
  - rewrite IH, filter_cons. case_bool_decide; case_decide; try done.
    by rewrite fmap_cons, <-app_assoc.
Qed.

(** The three tables are the images of the three collections. *)
Lemma tables_of_maps (int_lit : Z → num) (network : lib_network num) :
  tables_of int_lit network
    = (node_record int_lit <$> net_nodes network,
       pipe_record <$> filter (λ link, link_type link = "Pipe")
                         (net_links network),
       demand_record <$> net_junctions network).
Proof.
  unfold tables_of. cbv zeta.
  by rewrite !foldl_snoc_fmap,
    (foldl_snoc_filter (λ link, link_type link = "Pipe")).
Qed.

(** The text handed to the parser is the text of the upload: it was
    written to the temporary file and flushed before the file is opened by
    name. *)
Lemma EPANetSimulation_reads_upload
    (read_inp : bytes → result (lib_network num)) (name : string)
    (data : bytes) (st : fs) :
  EPANetSimulation read_inp (tmp_write_flush name data (tmp_enter name st)) name
    = read_inp data.
Proof. unfold EPANetSimulation. simpl. by rewrite lookup_insert_eq. Qed.

(** C8. When the parser reads a network from the upload, the node table
    has one row per node, of kind tank exactly for the nodes of type Tank
    and of kind node for all others, placed at the origin; the pipe table has
    one row per link of type Pipe, in order, with the link's ends, length,
    diameter and roughness; the demand table has one row per junction, with
    its base demand. *)
Theorem parse_inp_file_tables (int_lit : Z → num) (mktemp : fs → string)
    (read_inp : bytes → result (lib_network num)) (data : bytes) (st : fs)
    (network : lib_network num) :
  read_inp data = Ok network →
  ∃ nodes pipes demands,
    (parse_inp_file int_lit mktemp read_inp (Ok data) st).2
      = Ok (nodes, pipes, demands) ∧
    Forall2 (λ node row,
               nd_id row = Some (node_id node) ∧
               (node_type node = "Tank" → nd_type row = Some "tank") ∧
               (node_type node ≠ "Tank" → nd_type row = Some "node") ∧
               nd_x row = int_lit 0%Z ∧ nd_y row = int_lit 0%Z ∧
               nd_elevation row = elevation node)
            (net_nodes network) nodes ∧
    Forall2 (λ link row,
               link_type link = "Pipe" ∧
               pp_id row = Some (link_id link) ∧
               pp_from row = Some (node_id (start_node link)) ∧
               pp_to row = Some (node_id (end_node link)) ∧
               pp_length row = link_length link ∧
               pp_diameter row = diameter link ∧
               pp_roughness row = roughness link)
            (filter (λ link, link_type link = "Pipe") (net_links network))
            pipes ∧
    Forall2 (λ j row,
               dm_node_id row = Some (junction_id j) ∧
               dm_demand row = base_demand j)
            (net_junctions network) demands.
Proof.
  intros Hread. eexists _, _, _. split.
  - unfold parse_inp_file. cbv zeta. simpl.
    rewrite EPANetSimulation_reads_upload, Hread, bind_Ok, tables_of_maps.
    reflexivity.
  - split; [|split]; apply Forall2_fmap_r, Forall_Forall2_diag, Forall_forall.
    + intros node _. unfold node_record. simpl.
      case_bool_decide; repeat split; done.
    + intros link [Hpipe _]%list_elem_of_filter. by repeat split.
    + intros j _. by split.
Qed.

(** C7, as amended.  On every path (the upload cannot be read, the parser
    raises, the parser succeeds) the temporary file is closed when the
    operation ends, and it is still on disk: it holds the upload, or nothing
    when the upload could not be read. *)
Theorem parse_inp_file_leaves_temporary_file (int_lit : Z → num)
    (mktemp : fs → string) (read_inp : bytes → result (lib_network num))
    (file : result bytes) (st : fs) :
  let name := mktemp st +:+ ".inp" in
  let st' := (parse_inp_file int_lit mktemp read_inp file st).1 in
  (name ∉ fs_open st') ∧
  ¬ cleaned_up name st' ∧
  fs_files st' !! name
    = Some (match file with Ok data => data | Raise _ => [] end).
Proof.
  intros name st'. subst st'. unfold parse_inp_file, cleaned_up. cbv zeta.
  fold name. destruct file as [data|e]; simpl.
  - rewrite !lookup_insert_eq. split; [|by split].
    intros [_ Hn]%elem_of_difference. apply Hn. by apply elem_of_singleton.
  - rewrite !lookup_insert_eq. split; [|by split].
    intros [_ Hn]%elem_of_difference. apply Hn. by apply elem_of_singleton.
Qed.
End Properties.


Lemma validate_network_accepts_witness :
  validate_network nodes_min pipes_min demands_min = Ok ([], []).
Proof.
  apply validate_network_accepts.
  - apply (bool_decide_unpack _). vm_compute. exact I.
  - apply (bool_decide_unpack _). vm_compute. exact I.
  - intros p ->%list_elem_of_singleton. exists "A", "B".
    repeat split; apply (bool_decide_unpack _); vm_compute; exact I.
  - intros d n ->%list_elem_of_singleton [= <-].
    apply (bool_decide_unpack _). vm_compute. exact I.
  - intros r n Hr Hid _. exists (PipeRow (Some "P1") (Some "A") (Some "B") (q 100 1) (q 200 1) (q 100 1)).
    split; [left|].
    apply elem_of_cons in Hr as [->|Hr%list_elem_of_singleton].
    + left. simpl in Hid. by rewrite <-Hid.
    + right. subst r. simpl in Hid. by rewrite <-Hid.
Defined.

Lemma missing_demand_reference_skipped_witness :
  validate_network nodes_min pipes_min (demands_min ++ demand_blank :: [])
    = validate_network nodes_min pipes_min (demands_min ++ [])
  ∧ (∀ (Net : Type) (lib : NetworkLib Q Net),
       create_network (Net := Net) nodes_min pipes_min
         (demands_min ++ demand_blank :: [])
       = create_network nodes_min pipes_min (demands_min ++ []))
  ∧ ∃ net : list (call Q),
      create_network nodes_min pipes_min (demands_min ++ demand_blank :: [])
        = Ok net ∧
      demand_set net = present_demands (demands_min ++ []).
Proof. apply missing_demand_reference_skipped. reflexivity. Defined.

Lemma isolated_decided_by_first_record_witness :
  reported_isolated ([] ++ node_N1 :: [tank_N1]) [] [] "N1"
  ∧ ¬ reported_isolated ([] ++ as_tank node_N1 :: [tank_N1]) [] [] "N1".
Proof.
  destruct (isolated_decided_by_first_record [] [tank_N1] node_N1 [] [] "N1")
    as [Hnode Htank].
  - reflexivity.
  - intros r' Hr'. by apply elem_of_nil in Hr'.
  - intros p Hp. by apply elem_of_nil in Hp.
  - vm_compute. lia.
  - vm_compute. lia.
  - split; [|exact Htank]. apply Hnode. discriminate.
Defined.

(** C3, as stated, fails when an identifier is shared.  With a tank N1
    followed by a junction N1 and no pipes, the junction is not reported;
    with the junction first, the tank in second position, equal to the
    junction but for its kind, is reported. *)
Lemma isolated_claim_fails_on_shared_id :
  (node_N1 ∈ [tank_N1; node_N1] ∧ nd_type node_N1 = Some "node" ∧
   nd_id node_N1 = Some "N1" ∧
   validate_network [tank_N1; node_N1] [] []
     = Ok (["Duplicate node IDs: N1"],
           ["Remove or rename duplicate node IDs."]) ∧
   ¬ reported_isolated [tank_N1; node_N1] [] [] "N1")
  ∧ (tank_N1 = as_tank node_N1 ∧
     reported_isolated [node_N1; tank_N1] [] [] "N1").
Proof.
  split.
  - split; [right; left|]. do 3 (split; [reflexivity|]).
    intros (isolated & errors & hints & Hiso & Hin & _).
    vm_compute in Hiso. injection Hiso as <-. by apply elem_of_nil in Hin.
  - split; [reflexivity|].
    exists ["N1"; "N1"],
      ["Duplicate node IDs: N1";
       "Isolated nodes with no connected pipes: N1, N1"],
      ["Remove or rename duplicate node IDs.";
       "Connect isolated nodes with pipes."].
    split; [reflexivity|]. split; [left|]. split; [reflexivity|].
    right. left.
Qed.

Lemma suggestions_only_with_errors_witness :
  (["Connect isolated nodes with pipes."] ≠ [] →
     ["Isolated nodes with no connected pipes: N1"] ≠ []) ∧
  (["Isolated nodes with no connected pipes: N1"] = [] →
     ["Connect isolated nodes with pipes."] = []).
Proof. apply (suggestions_only_with_errors [node_N1] [] []). reflexivity. Defined.

Lemma parse_inp_file_tables_witness :
  ∃ nodes pipes demands,
    (parse_inp_file inject_Z mktemp_sample read_inp_sample
       (Ok upload_sample) fs_empty).2 = Ok (nodes, pipes, demands) ∧
    length nodes = 3 ∧ length pipes = 1 ∧ length demands = 2.
Proof.
  destruct (parse_inp_file_tables inject_Z mktemp_sample read_inp_sample
              upload_sample fs_empty network_sample)
    as (nodes & pipes & demands & Hres & Hn & Hp & Hd).
  - reflexivity.
  - exists nodes, pipes, demands. split; [exact Hres|].
    apply Forall2_length in Hn, Hp, Hd.
    rewrite <-Hn, <-Hp, <-Hd. repeat split.
Defined.

(** C7, as stated, fails: the file is created with delete=False and nothing
    removes it.  After a successful import, after a parser failure and
    after a failed read of the upload it is still there. *)
Lemma temporary_file_not_cleaned_up :
  ¬ cleaned_up "/tmp/tmpk3v9.inp"
      (parse_inp_file inject_Z mktemp_sample read_inp_sample
         (Ok upload_sample) fs_empty).1 ∧
  ¬ cleaned_up "/tmp/tmpk3v9.inp"
      (parse_inp_file inject_Z mktemp_sample read_inp_failing
         (Ok upload_sample) fs_empty).1 ∧
  ¬ cleaned_up "/tmp/tmpk3v9.inp"
      (parse_inp_file inject_Z mktemp_sample read_inp_sample
         (Raise IOError) fs_empty).1.
Proof. unfold cleaned_up. repeat split; vm_compute; discriminate. Qed.

(** C4.  With one blank identifier in the node table the dangling end of
    pipe P1 is reported; with a second blank identifier the function raises
    TypeError while joining the duplicates and nothing is reported. *)
Theorem dangling_pipe_lost_on_blank_ids :
  validate_network [node_N1; node_blank] [pipe_to_N99] []
    = Ok (["Pipe P1 connects to unknown node 'N99'"],
          ["Add node 'N99' to node table."]) ∧
  validate_network [node_N1; node_blank; node_blank] [pipe_to_N99] []
    = Raise TypeError.
Proof. split; vm_compute; reflexivity. Qed.

(** C5.  With N1 twice and one blank identifier the duplicate is reported
    in one message; with N1 twice and two blank identifiers the function
    raises TypeError and no message about N1 is produced. *)
Theorem duplicate_node_lost_on_blank_ids :
  validate_network [node_N1; node_N1; node_blank] [pipe_to_N99] []
    = Ok (["Duplicate node IDs: N1";
           "Pipe P1 connects to unknown node 'N99'"],
          ["Remove or rename duplicate node IDs.";
           "Add node 'N99' to node table."]) ∧
  validate_network [node_N1; node_N1; node_blank; node_blank] [pipe_to_N99] []
    = Raise TypeError.
Proof. split; vm_compute; reflexivity. Qed.

(** C10.  With one pipe whose identifier is blank the two lists come back
    with equal lengths; with a second such pipe the function raises
    TypeError while joining the pipe duplicates and returns no lists. *)
Theorem paired_lists_lost_on_blank_pipe_ids :
  validate_network nodes_min [pipe_blank_AB] demands_min = Ok ([], []) ∧
  validate_network nodes_min [pipe_blank_AB; pipe_blank_BA] demands_min
    = Raise TypeError.
Proof. split; vm_compute; reflexivity. Qed.

(** C9, as amended.  When epanettools reads back what it wrote, exporting
    the assembled minimal network and importing the file gives back the
    pipe table, the node table with every coordinate reset to zero, and a
    demand table with one row per junction: the demand at B, and a row for
    A with the base demand of a junction without demand. *)
Theorem export_reparse_minimal (mktemp : fs → string)
    (write_inp : list (call Q) → bytes)
    (read_inp : bytes → result (lib_network Q)) (no_demand : Q) (st : fs)
    (xa ya xb yb : Q) (net : list (call Q)) :
  create_network (nodes_min_at xa ya xb yb) pipes_min demands_min = Ok net →
  read_inp (write_inp net) = Ok (written_network no_demand net) →
  (parse_inp_file inject_Z mktemp read_inp (Ok (write_inp net)) st).2
    = Ok (nodes_min_at (inject_Z 0) (inject_Z 0) (inject_Z 0) (inject_Z 0),
          pipes_min,
          [DemandRow (Some "A") no_demand; DemandRow (Some "B") (q 1 100)]).
Proof.
  intros Hnet Hread. rewrite create_network_recorded in Hnet.
  injection Hnet as <-.
  unfold parse_inp_file. cbv zeta. cbn [snd].
  rewrite EPANetSimulation_reads_upload, Hread, bind_Ok, tables_of_maps.
  reflexivity.
Qed.

Lemma export_reparse_minimal_witness :
  (parse_inp_file inject_Z mktemp_sample read_inp_written
     (Ok (write_inp_sample calls_min)) fs_empty).2
    = Ok (nodes_min, pipes_min,
          [DemandRow (Some "A") (q 0 1); DemandRow (Some "B") (q 1 100)]).
Proof.
  apply (export_reparse_minimal mktemp_sample write_inp_sample
           read_inp_written (q 0 1) fs_empty (q 0 1) (q 0 1) (q 0 1) (q 0 1)
           calls_min); reflexivity.
Defined.

(** C9, as stated, fails: after assembly, export and import of the minimal
    network the node and pipe tables are the original ones, but the demand
    table has two rows where the original has one. *)
Lemma export_reparse_not_idempotent :
  create_network nodes_min pipes_min demands_min = Ok calls_min ∧
  ∃ nodes pipes demands,
    (parse_inp_file inject_Z mktemp_sample read_inp_written
       (Ok (write_inp_sample calls_min)) fs_empty).2
      = Ok (nodes, pipes, demands) ∧
    nodes = nodes_min ∧ pipes = pipes_min ∧
    length demands = 2 ∧ length demands_min = 1 ∧ demands ≠ demands_min.
Proof.
  split; [reflexivity|].
  eexists _, _, _. split; [reflexivity|]. repeat split. discriminate.
Qed.

(** * Further properties *)

Section Further.
Context {num : Type}.
Implicit Types (nodes_df : list (node_row num)) (pipes_df : list (pipe_row num))
  (demands_df : list (demand_row num)).

(** ** What an empty error list tells *)

Lemma mask_duplicated_from_nil_inv (seen s : list cell) :
  mask s (duplicated_from seen s) = [] →
  NoDup s ∧ ∀ c, c ∈ s → c ∉ seen.
Proof.
  revert seen. induction s as [|a s IH]; intros seen; simpl.
  - intros _. split; [constructor|]. by intros c ?%elem_of_nil.
  - case_bool_decide as Ha; [done|]. intros [Hnd Hseen]%IH. split.
    + constructor; [|done]. intros Hin. apply (Hseen a Hin). left.
    + intros c [->|Hc]%elem_of_cons; [done|].
      intros Hin. apply (Hseen c Hc). by right.
Qed.

Lemma concat_fmap_nil_inv {A B : Type} (f : A → list B) (l : list A) :
  concat (f <$> l) = [] → ∀ x, x ∈ l → f x = [].
Proof.
  induction l as [|a l IH]; [by intros _ x ?%elem_of_nil|].
  rewrite fmap_cons, concat_cons. intros [Ha Hl]%app_eq_nil x.
  intros [->|Hx]%elem_of_cons; [done|]. by apply IH.
Qed.

Lemma duplicate_errors_nil msg (ids : list cell) :
  duplicate_errors msg ids = [] → NoDup ids.
Proof.
  unfold duplicate_errors.
  destruct (mask ids (duplicated ids)) eqn:Hm; [|done]. intros _.
  by apply mask_duplicated_from_nil_inv in Hm as [? _].
Qed.

(** With distinct identifiers the type looked up for an identifier is that
    of the one record carrying it. *)
Lemma first_type_unique nodes_df (r : node_row num) (n : string) :
  NoDup (nd_id <$> nodes_df) → r ∈ nodes_df → nd_id r = Some n →
  first_type nodes_df n = Ok (nd_type r).
Proof.
  intros Hnd (pre & post & ->)%list_elem_of_split Hid.
  apply (first_type_first _ pre post r n); [done|done|].
  intros r' Hr' Hid'. rewrite fmap_app, fmap_cons in Hnd.
  apply NoDup_app in Hnd as (_ & Hdisj & _).
  apply (Hdisj (Some n)).
  - apply list_elem_of_fmap. by exists r'.
  - rewrite Hid. left.
Qed.

(** The facts behind an empty error list, in terms of the columns. *)
Lemma no_errors_inv nodes_df pipes_df demands_df hints :
  validate_network nodes_df pipes_df demands_df = Ok ([], hints) →
  hints = [] ∧
  NoDup (nd_id <$> nodes_df) ∧ NoDup (pp_id <$> pipes_df) ∧
  (∀ p, p ∈ pipes_df →
     cell_in (pp_from p) (dropna (nd_id <$> nodes_df)) = true ∧
     cell_in (pp_to p) (dropna (nd_id <$> nodes_df)) = true) ∧
  (∀ n, n ∈ dropna (dm_node_id <$> demands_df) →
     n ∈ dropna (nd_id <$> nodes_df)) ∧
  isolated_list nodes_df pipes_df = [].
Proof.
  intros Hv. pose proof Hv as (_ & _ & He & ->)%validate_network_Ok_inv.
  pose proof (expected_paired nodes_df pipes_df demands_df) as Hlen.
  unfold paired in Hlen. simpl in Hlen. rewrite <-He in Hlen.
  split; [symmetry in Hlen; by apply nil_length_inv in Hlen|].
  symmetry in He. unfold expected_errors in He. cbv zeta in He.
  apply app_eq_nil in He as [Hdn He]. apply app_eq_nil in He as [Hdp He].
  apply app_eq_nil in He as [Hpe He]. apply app_eq_nil in He as [Hde Hiso].
  split; [by eapply duplicate_errors_nil|].
  split; [by eapply duplicate_errors_nil|]. split; [|split].
  - intros p Hp. pose proof (concat_fmap_nil_inv _ _ Hpe p Hp) as H.
    unfold pipe_errors in H.
    destruct (cell_in (pp_from p) _), (cell_in (pp_to p) _); done.
  - intros n Hn. pose proof (concat_fmap_nil_inv _ _ Hde n Hn) as H.
    unfold demand_errors in H. case_bool_decide; done.
  - unfold isolated_errors in Hiso.
    by destruct (isolated_list nodes_df pipes_df).
Qed.

(** X1. An empty error list is a sound verdict: when [validate_network]
    returns no error, it returns no suggestion either, no value of an id
    column occurs twice, every pipe end and every present demand reference
    names a node of the table, and every node record that carries an
    identifier and is not a tank is an end of some pipe.  (A record without
    identifier is not checked for connectivity.) *)
Theorem empty_errors_sound nodes_df pipes_df demands_df hints :
  validate_network nodes_df pipes_df demands_df = Ok ([], hints) →
  hints = [] ∧
  NoDup (nd_id <$> nodes_df) ∧ NoDup (pp_id <$> pipes_df) ∧
  (∀ p, p ∈ pipes_df →
     ∃ a b, pp_from p = Some a ∧ pp_to p = Some b ∧
            Some a ∈ nd_id <$> nodes_df ∧ Some b ∈ nd_id <$> nodes_df) ∧
  (∀ d n, d ∈ demands_df → dm_node_id d = Some n →
     Some n ∈ nd_id <$> nodes_df) ∧
  (∀ r n, r ∈ nodes_df → nd_id r = Some n → nd_type r ≠ Some "tank" →
     ∃ p, p ∈ pipes_df ∧ (pp_from p = Some n ∨ pp_to p = Some n)).
Proof.
  intros (Hh & Hn & Hp & Hends & Hdem & Hiso)%no_errors_inv.
  do 3 (split; [done|]). split; [|split].
  - intros p [Hfrom Hto]%Hends.
    apply cell_in_true in Hfrom as (a & Ha & Hina).
    apply cell_in_true in Hto as (b & Hb & Hinb). by exists a, b.
  - intros d n Hd Hid. apply elem_of_dropna, Hdem, elem_of_dropna.
    apply list_elem_of_fmap. exists d. by rewrite Hid.
  - intros r n Hr Hid Hkind.
    assert (Some n ∈ nd_id <$> nodes_df) as Hin
      by (apply list_elem_of_fmap; exists r; by rewrite Hid).
    destruct (decide (Some n ∈ connected_set pipes_df)) as [Hc|Hc];
      [by apply elem_of_connected_set in Hc|].
    exfalso. assert (n ∈ isolated_list nodes_df pipes_df) as Hbad.
    { apply list_elem_of_filter. split; [|by apply elem_of_dropna].
      split; [done|]. rewrite (first_type_unique _ r n) by done.
      by intros [= ?]. }
    rewrite Hiso in Hbad. by apply elem_of_nil in Hbad.
Qed.

Lemma occurrences_two (c : cell) (s : list cell) (i j : nat) :
  i ≠ j → s !! i = Some c → s !! j = Some c → 2 ≤ occurrences c s.
Proof.
  revert i j. induction s as [|a s IH]; intros i j Hij Hi Hj; [done|].
  rewrite occurrences_cons.
  destruct i as [|i], j as [|j]; simpl in Hi, Hj; try done.
  - injection Hi as ->. rewrite decide_True by done.
    apply list_elem_of_lookup_2, occurrences_pos in Hj. lia.
  - injection Hj as ->. rewrite decide_True by done.
    apply list_elem_of_lookup_2, occurrences_pos in Hi. lia.
  - assert (i ≠ j) as Hij' by lia. pose proof (IH i j Hij' Hi Hj). lia.
Qed.

(** X2. Two rows of the node table without identifier, or two rows of the
    pipe table without identifier, make the function raise TypeError: no
    report is returned, whatever else the tables hold. *)
Theorem blank_ids_raise_TypeError nodes_df pipes_df demands_df :
  (∃ i j r r', i ≠ j ∧ nodes_df !! i = Some r ∧ nodes_df !! j = Some r' ∧
               nd_id r = None ∧ nd_id r' = None) ∨
  (∃ i j p p', i ≠ j ∧ pipes_df !! i = Some p ∧ pipes_df !! j = Some p' ∧
               pp_id p = None ∧ pp_id p' = None) →
  validate_network nodes_df pipes_df demands_df = Raise TypeError.
Proof.
  intros H. apply validate_network_Raise. unfold missing_count.
  destruct H as [(i & j & r & r' & Hij & Hi & Hj & Hr & Hr')
                |(i & j & r & r' & Hij & Hi & Hj & Hr & Hr')]; [left|right];
    apply (occurrences_two _ _ i j Hij); rewrite list_lookup_fmap;
    by rewrite ?Hi, ?Hj; simpl; rewrite ?Hr, ?Hr'.
Qed.

(** X3. A demand reference that names no node of the table is reported, in
    every report the function returns. *)
Theorem unknown_demand_reported nodes_df pipes_df demands_df errors hints
    (d : demand_row num) (n : string) :
  validate_network nodes_df pipes_df demands_df = Ok (errors, hints) →
  d ∈ demands_df → dm_node_id d = Some n → Some n ∉ nd_id <$> nodes_df →
  unknown_demand_msg n ∈ errors ∧ check_demand_hint n ∈ hints.
Proof.
  intros (_ & _ & -> & ->)%validate_network_Ok_inv Hd Hid Hunknown.
  assert (n ∈ dropna (dm_node_id <$> demands_df)) as Hn.
  { apply elem_of_dropna, list_elem_of_fmap. exists d. by rewrite Hid. }
  assert (bool_decide (n ∈ dropna (nd_id <$> nodes_df)) = false) as Hb.
  { apply bool_decide_eq_false_2. by rewrite elem_of_dropna. }
  unfold expected_errors, expected_hints. cbv zeta.
  rewrite !elem_of_app. split; do 3 right; left.
  - apply (elem_of_concat_fmap _ _ n); [done|].
    unfold demand_errors. rewrite Hb. left.
  - apply (elem_of_concat_fmap _ _ n); [done|].
    unfold demand_hints. rewrite Hb. left.
Qed.

(** ** Assembly after validation *)

Lemma registered_node_calls nodes_df :
  registered (node_call <$> nodes_df) = nd_id <$> nodes_df.
Proof.
  induction nodes_df as [|r l IH]; [done|].
  rewrite !fmap_cons. unfold registered, node_call at 1. cbn.
  case_bool_decide; cbn; f_equal; exact IH.
Qed.

Lemma registered_app (net1 net2 : list (call num)) :
  registered (net1 ++ net2) = registered net1 ++ registered net2.
Proof. apply omap_app. Qed.

Lemma registered_pipe_calls pipes_df : registered (pipe_call <$> pipes_df) = [].
Proof. induction pipes_df as [|r l IH]; [done|]. exact IH. Qed.

Lemma registered_demand_calls demands_df :
  registered (concat (demand_calls <$> demands_df)) = [].
Proof.
  induction demands_df as [|r l IH]; [done|].
  rewrite fmap_cons, concat_cons, registered_app, IH.
  unfold demand_calls. by destruct (dm_node_id r).
Qed.

Lemma elem_of_concat_fmap_inv {A B : Type} (f : A → list B) (l : list A)
    (x : B) :
  x ∈ concat (f <$> l) → ∃ a, a ∈ l ∧ x ∈ f a.
Proof.
  induction l as [|b l IH]; [by intros ?%elem_of_nil|].
  rewrite fmap_cons, concat_cons, elem_of_app. intros [Hx|Hx].
  - exists b. split; [left|done].
  - destruct (IH Hx) as (a & Ha & Hxa). exists a. split; [by right|done].
Qed.

(** X5. Validation gates assembly: on tables that validate without error
    the recording network receives one registration per node row, each under
    a distinct identifier; every pipe added joins two registered
    identifiers, and every demand is attached to a registered one. *)
Theorem validated_network_well_formed nodes_df pipes_df demands_df hints :
  validate_network nodes_df pipes_df demands_df = Ok ([], hints) →
  ∃ net : list (call num),
    create_network nodes_df pipes_df demands_df = Ok net ∧
    registered net = nd_id <$> nodes_df ∧
    NoDup (registered net) ∧
    ∀ c, c ∈ net →
      match c with
      | AddPipe _ a b _ _ _ =>
          is_Some a ∧ is_Some b ∧ a ∈ registered net ∧ b ∈ registered net
      | AddDemand n _ _ => Some n ∈ registered net
      | _ => True
      end.
Proof.
  intros (_ & Hn & _ & Hends & Hdem & _)%no_errors_inv.
  eexists. split; [apply create_network_recorded|].
  assert (registered ((node_call <$> nodes_df) ++ (pipe_call <$> pipes_df)
                      ++ concat (demand_calls <$> demands_df))
          = nd_id <$> nodes_df) as Hreg.
  { by rewrite !registered_app, registered_node_calls, registered_pipe_calls,
      registered_demand_calls, !app_nil_r. }
  rewrite Hreg. split; [done|]. split; [done|].
  intros c. rewrite !elem_of_app.
  intros [Hc|[Hc|Hc]].
  - apply list_elem_of_fmap in Hc as (r & -> & _). unfold node_call.
    by case_bool_decide.
  - apply list_elem_of_fmap in Hc as (p & -> & Hp). simpl.
    destruct (Hends p Hp) as [(a & -> & Ha)%cell_in_true
                               (b & -> & Hb)%cell_in_true].
    by repeat split.
  - apply elem_of_concat_fmap_inv in Hc as (d & Hd & Hc).
    unfold demand_calls in Hc. destruct (dm_node_id d) as [n|] eqn:Hid;
      [|by apply elem_of_nil in Hc].
    apply list_elem_of_singleton in Hc as ->.
    apply elem_of_dropna, Hdem, elem_of_dropna, list_elem_of_fmap.
    exists d. by rewrite Hid.
Qed.



(** ** Imported tables *)

Lemma missing_count_present {A : Type} (f : A → string) (l : list A) :
  missing_count ((λ x, Some (f x)) <$> l) = 0.
Proof.
  unfold missing_count. induction l as [|x l IH]; [done|].
  rewrite fmap_cons, occurrences_cons, IH. by case_decide.
Qed.

Lemma imported_node_ids (int_lit : Z → num) (nodes : list (lib_node num)) :
  nd_id <$> (node_record int_lit <$> nodes)
    = (λ node, Some (node_id node)) <$> nodes.
Proof. by rewrite <-list_fmap_compose. Qed.

Lemma imported_pipe_ids (links : list (lib_link num)) :
  pp_id <$> (pipe_record <$> links) = (λ link, Some (link_id link)) <$> links.
Proof. by rewrite <-list_fmap_compose. Qed.

(** X7. Import and validation compose: on the tables read from a network
    file [validate_network] always returns a report, because every
    identifier cell of an imported table is present. *)
Theorem imported_tables_validate (int_lit : Z → num)
    (network : lib_network num) :
  ∃ errors hints,
    validate_network (tables_of int_lit network).1.1
      (tables_of int_lit network).1.2 (tables_of int_lit network).2
    = Ok (errors, hints).
Proof.
  rewrite tables_of_maps. cbn [fst snd]. eexists _, _.
  apply validate_network_Ok.
  - rewrite imported_node_ids, missing_count_present. lia.
  - rewrite imported_pipe_ids, missing_count_present. lia.
Qed.

(** X8. Links that are not pipes are dropped on import, so a junction joined
    to the rest only through pumps or valves fails validation: an identifier
    carried by some node, by no tank, and at neither end of a link of type
    Pipe is reported as isolated on the imported tables. *)
Theorem imported_pumped_junction_isolated (int_lit : Z → num)
    (network : lib_network num) (n : string) :
  (∃ node, node ∈ net_nodes network ∧ node_id node = n) →
  (∀ node, node ∈ net_nodes network → node_id node = n →
     node_type node ≠ "Tank") →
  (∀ link, link ∈ net_links network → link_type link = "Pipe" →
     node_id (start_node link) ≠ n ∧ node_id (end_node link) ≠ n) →
  reported_isolated (tables_of int_lit network).1.1
    (tables_of int_lit network).1.2 (tables_of int_lit network).2 n.
Proof.
  intros (node & Hnode & Hid) Hkind Hfree.
  rewrite tables_of_maps. cbn [fst snd].
  set (nodes_df := node_record int_lit <$> net_nodes network).
  set (pipes_df := pipe_record <$> filter (λ link, link_type link = "Pipe")
                                     (net_links network)).
  set (demands_df := demand_record <$> net_junctions network).
  assert (n ∈ isolated_list nodes_df pipes_df) as Hin.
  { apply elem_of_isolated_list. split; [|split].
    - apply list_elem_of_fmap. exists (node_record int_lit node).
      split; [by rewrite <-Hid|]. apply list_elem_of_fmap. by exists node.
    - intros p (link & -> & [Hpipe Hlink]%list_elem_of_filter)%list_elem_of_fmap.
      destruct (Hfree link Hlink Hpipe) as [Hs He]. simpl.
      split; intros [= ?]; done.
    - assert (Some n ∈ nd_id <$> nodes_df) as Hn.
      { apply list_elem_of_fmap. exists (node_record int_lit node).
        split; [by rewrite <-Hid|]. apply list_elem_of_fmap. by exists node. }
      destruct (first_type_found _ _ Hn) as (r & Hr & Hrid & ->).
      apply list_elem_of_fmap in Hr as (node' & -> & Hnode'). simpl in *.
      injection Hrid as Hrid.
      rewrite bool_decide_eq_false_2 by (by apply Hkind). by intros [= ?]. }
  exists (isolated_list nodes_df pipes_df),
    (expected_errors nodes_df pipes_df demands_df),
    (expected_hints nodes_df pipes_df demands_df).
  split; [apply isolated_nodes_Ok|]. split; [done|]. split.
  - apply validate_network_Ok.
    + unfold nodes_df. rewrite imported_node_ids, missing_count_present. lia.
    + unfold pipes_df. rewrite imported_pipe_ids, missing_count_present. lia.
  - apply isolated_msg_reported. intros Hnil. rewrite Hnil in Hin.
    by apply elem_of_nil in Hin.
Qed.

(** X9. Import and assembly compose: assembling the imported tables on the
    recording network registers a tank for every node of type Tank and an
    ordinary node for every other node (a reservoir included), at the
    origin, and attaches the base demand of every junction, none skipped. *)
Theorem imported_tables_assemble (int_lit : Z → num)
    (network : lib_network num) :
  ∃ net : list (call num),
    create_network (tables_of int_lit network).1.1
      (tables_of int_lit network).1.2 (tables_of int_lit network).2 = Ok net ∧
    demand_set net
      = (λ j, (junction_id j, base_demand j)) <$> net_junctions network ∧
    Forall (λ node,
              (if bool_decide (node_type node = "Tank")
               then AddTank (Some (node_id node)) (int_lit 0%Z) (int_lit 0%Z)
                      (elevation node)
               else AddNode (Some (node_id node)) (int_lit 0%Z) (int_lit 0%Z)
                      (elevation node)) ∈ net)
           (net_nodes network).
Proof.
  rewrite tables_of_maps. cbn [fst snd]. eexists.
  split; [apply create_network_recorded|]. split.
  - rewrite !demand_set_app, demand_set_nodes, demand_set_pipes,
      demand_set_demands. simpl. unfold present_demands.
    induction (net_junctions network) as [|j l IH]; [done|].
    cbn. f_equal. exact IH.
  - apply Forall_forall. intros node Hnode. rewrite elem_of_app. left.
    apply list_elem_of_fmap. exists (node_record int_lit node).
    split; [|apply list_elem_of_fmap; by exists node].
    unfold node_call, node_record. simpl.
    destruct (bool_decide (node_type node = "Tank")); by simpl.
Qed.

(** ** Export of the result tables *)



(** ** The result views *)

Lemma column_Some (df : frame (num := num)) (name : string)
    (series : list num) :
  column df name = Some series → (name, series) ∈ df.
Proof.
  unfold column.
  destruct (filter (λ c, c.1 = name) df) as [|c l] eqn:Hf; [done|].
  simpl. intros [= <-].
  assert (c ∈ filter (λ c, c.1 = name) df) as Hc by (rewrite Hf; left).
  apply list_elem_of_filter in Hc as [<- Hc]. by destruct c.
Qed.

Lemma column_is_Some (df : frame (num := num)) (name : string) :
  is_Some (column df name) ↔ name ∈ columns df.
Proof.
  unfold column, columns. split.
  - intros [series Hs].
    destruct (filter (λ c, c.1 = name) df) as [|c l] eqn:Hf; [done|].
    assert (c ∈ filter (λ c, c.1 = name) df) as Hc by (rewrite Hf; left).
    apply list_elem_of_filter in Hc as [<- Hc].
    apply list_elem_of_fmap. by exists c.
  - intros (c & -> & Hc)%list_elem_of_fmap.
    destruct (filter (λ c0, c0.1 = c.1) df) as [|c' l] eqn:Hf; [|by eexists].
    exfalso. by eapply (filter_nil_not_elem_of _ _ c Hf).
Qed.

Lemma iloc_in_range (series : list num) (i : Z) :
  (- Z.of_nat (length series) ≤ i < Z.of_nat (length series))%Z →
  ∃ v, iloc series i = Ok v.
Proof.
  intros Hi. unfold iloc. cbv zeta.
  set (j := if bool_decide (i < 0)%Z then (i + Z.of_nat (length series))%Z
            else i).
  assert (0 ≤ j < Z.of_nat (length series))%Z as Hj
    by (unfold j; case_bool_decide; lia).
  rewrite bool_decide_eq_true_2 by done.
  destruct (lookup_lt_is_Some_2 series (Z.to_nat j)) as [v ->]; [lia|].
  by exists v.
Qed.

Lemma iloc_out_of_range (series : list num) (i : Z) :
  ¬ (- Z.of_nat (length series) ≤ i < Z.of_nat (length series))%Z →
  iloc series i = Raise IndexError.
Proof.
  intros Hi. unfold iloc. cbv zeta.
  rewrite bool_decide_eq_false_2; [done|]. case_bool_decide; lia.
Qed.

Lemma map_node_raises (int_lit : Z → num) (df : frame (num := num))
    (t : Z) (acc : scatter (num := num)) item (e : exn) :
  map_node int_lit df t acc item = Raise e → e = IndexError.
Proof.
  unfold map_node. destruct item as [name [[x y]|]];
    (case_bool_decide; [|done]);
    (destruct (column df name) as [series|]; [|by intros [= <-]]);
    cbn; unfold iloc; cbv zeta;
    (case_bool_decide; [|by intros [= <-]]);
    (destruct (series !! _); [done|by intros [= <-]]).
Qed.

Lemma map_loop_raises (int_lit : Z → num) (df : frame (num := num))
    (t : Z) wn_nodes (acc : scatter (num := num)) (e : exn) :
  for_each (map_node int_lit df t) wn_nodes acc = Raise e → e = IndexError.
Proof.
  revert acc. induction wn_nodes as [|item l IH]; intros acc; [done|]. simpl.
  destruct (map_node int_lit df t acc item) as [acc'|e'] eqn:Hm.
  - rewrite bind_Ok. apply IH.
  - rewrite bind_Raise. intros [= <-]. by eapply map_node_raises.
Qed.

Lemma map_node_Ok (int_lit : Z → num) (df : frame (num := num)) (t : Z)
    (acc acc' : scatter (num := num)) item :
  map_node int_lit df t acc item = Ok acc' →
  length (sc_x acc') = S (length (sc_x acc)) ∧
  length (sc_y acc') = S (length (sc_y acc)) ∧
  sc_text acc' = sc_text acc ++ [item.1] ∧
  ∃ colour, sc_color acc' = sc_color acc ++ [colour] ∧
            (colour = None ↔ item.1 ∉ columns df).
Proof.
  unfold map_node. destruct item as [name coordinates].
  destruct (match coordinates with Some xy => xy | None => _ end) as [x y].
  destruct (if bool_decide (name ∈ columns df) then _ else _)
    as [pv|] eqn:Hpv; [|done].
  rewrite bind_Ok. intros [= <-]. simpl. rewrite !length_app. simpl.
  repeat split; try lia. exists pv. split; [done|].
  case_bool_decide as Hin.
  - destruct (column df name) as [series|]; [|done].
    destruct (iloc series t) as [v|]; [|done]. cbn in Hpv.
    injection Hpv as <-. split; [done|tauto].
  - injection Hpv as <-. tauto.
Qed.

(** The loop keeps the four lists in step; a colour is None exactly for a
    node without pressure column. *)
Lemma map_loop_parallel (int_lit : Z → num) (df : frame (num := num))
    wn_nodes (t : Z) (acc sc : scatter (num := num)) :
  for_each (map_node int_lit df t) wn_nodes acc = Ok sc →
  length (sc_x sc) = length (sc_x acc) + length wn_nodes ∧
  length (sc_y sc) = length (sc_y acc) + length wn_nodes ∧
  sc_text sc = sc_text acc ++ wn_nodes.*1 ∧
  ∃ colours, sc_color sc = sc_color acc ++ colours ∧
    Forall2 (λ item colour, colour = None ↔ item.1 ∉ columns df)
            wn_nodes colours.
Proof.
  revert acc. induction wn_nodes as [|item l IH]; intros acc; simpl.
  - intros [= <-]. rewrite !Nat.add_0_r, app_nil_r.
    repeat split; try done. exists []. by rewrite app_nil_r.
  - destruct (map_node int_lit df t acc item) as [acc'|e] eqn:Hm; [|done].
    rewrite bind_Ok. intros (Hx & Hy & Ht & colours & Hcs & HF)%IH.
    apply map_node_Ok in Hm as (Hx' & Hy' & Ht' & colour & Hc' & Hnone).
    rewrite Hx, Hy, Ht, Hx', Hy', Ht', <-app_assoc.
    repeat split; try lia; try done.
    exists (colour :: colours). split.
    + by rewrite Hcs, Hc', <-app_assoc.
    + by constructor.
Qed.

(** X13. Whenever the map is built, every network node has a pressure
    column: positions, colours and labels have one entry per node, the
    labels are the node names in order and every colour is a pressure.  A
    node absent from the pressure table would be coloured None, which the
    scatter trace rejects. *)
Theorem show_network_map_parallel (int_lit : Z → num)
    (df : frame (num := num)) wn_nodes (t : Z) (sc : scatter (num := num)) :
  show_network_map int_lit df wn_nodes t = Ok sc →
  length (sc_x sc) = length wn_nodes ∧
  length (sc_y sc) = length wn_nodes ∧
  length (sc_color sc) = length wn_nodes ∧
  sc_text sc = wn_nodes.*1 ∧
  Forall (λ colour, is_Some colour) (sc_color sc) ∧
  Forall (λ item, item.1 ∈ columns df) wn_nodes.
Proof.
  unfold show_network_map, go_scatter.
  destruct (for_each _ wn_nodes _) as [lists|e] eqn:Hloop; [|done].
  rewrite bind_Ok. case_bool_decide as Hnone; [done|]. intros [= <-].
  apply map_loop_parallel in Hloop as (Hx & Hy & Ht & colours & Hcs & HF).
  simpl in *. rewrite Hcs in *.
  assert (Forall (λ colour : option num, is_Some colour) colours) as Hsome.
  { apply Forall_forall. intros colour Hin.
    destruct colour; [by eexists|]. exfalso. apply Hnone, Exists_exists.
    by exists None. }
  repeat split; try done.
  - symmetry. by eapply Forall2_length.
  - clear Hx Hy Ht Hcs Hnone. induction HF as [|item colour l k Hi _ IH];
      [constructor|]. apply Forall_cons in Hsome as [Hc Hk].
    constructor; [|by apply IH].
    destruct (decide (item.1 ∈ columns df)) as [|Hout]; [done|].
    apply Hi in Hout. subst colour. by destruct Hc.
Qed.

Lemma for_each_raises_at {S A : Type} (body : S → A → result S)
    (l : list A) (x : A) (s : S) :
  x ∈ l → (∀ s', ∃ e, body s' x = Raise e) →
  ∃ e, for_each body l s = Raise e.
Proof.
  intros Hx Hraise. revert s.
  induction l as [|a l IH]; intros s; [by apply elem_of_nil in Hx|]. simpl.
  apply elem_of_cons in Hx as [<-|Hx].
  - destruct (Hraise s) as [e ->]. by exists e.
  - destruct (body s a) as [s'|e]; [|by exists e].
    rewrite bind_Ok. by apply IH.
Qed.

(** X14. When every network node has a pressure column and the time step
    lies within the range of every column, counted from the start or, when
    negative, from the end, the map is built.  This covers every value the
    slider of the application can take. *)
Theorem show_network_map_in_range (int_lit : Z → num)
    (df : frame (num := num)) wn_nodes (t : Z) :
  Forall (λ c, (- Z.of_nat (length c.2) ≤ t < Z.of_nat (length c.2))%Z) df →
  Forall (λ item, item.1 ∈ columns df) wn_nodes →
  ∃ sc, show_network_map int_lit df wn_nodes t = Ok sc.
Proof.
  intros Hrange Hcols. unfold show_network_map.
  assert (∀ acc, ∃ lists,
            for_each (map_node int_lit df t) wn_nodes acc = Ok lists)
    as Hloop.
  { clear Hcols.
    induction wn_nodes as [|[name coordinates] l IH]; intros acc;
      [by eexists|]. cbn [for_each].
    assert (∃ acc', map_node int_lit df t acc (name, coordinates) = Ok acc')
      as [acc' ->].
    { unfold map_node.
      destruct (match coordinates with Some xy => xy | None => _ end)
        as [x y].
      case_bool_decide as Hin; [|by eexists].
      apply column_is_Some in Hin as [series Hs]. rewrite Hs.
      apply column_Some in Hs. rewrite Forall_forall in Hrange.
      destruct (iloc_in_range series t (Hrange _ Hs)) as [v ->].
      by eexists. }
    rewrite bind_Ok. apply IH. }
  destruct (Hloop (Scatter [] [] [] [])) as [lists Hlists].
  rewrite Hlists, bind_Ok. exists lists. unfold go_scatter.
  rewrite bool_decide_eq_false_2; [done|].
  apply map_loop_parallel in Hlists as (_ & _ & _ & colours & Hcs & HF).
  simpl in Hcs. rewrite Hcs. clear Hcs Hloop Hrange. revert Hcols.
  induction HF as [|item colour l k Hi _ IH]; intros Hcols;
    [by intros ?%Exists_nil|].
  apply Forall_cons in Hcols as [Hin Hl].
  intros [Hnone|Hex]%Exists_cons; [by apply Hi in Hnone|by apply IH].
Qed.

(** X15. A time step outside the range of the pressure column of some
    network node makes the map fail with IndexError; so does the default
    time step -1 when the results have no row. *)
Theorem show_network_map_out_of_range (int_lit : Z → num)
    (df : frame (num := num)) wn_nodes (t : Z) item (series : list num) :
  item ∈ wn_nodes → column df item.1 = Some series →
  ¬ (- Z.of_nat (length series) ≤ t < Z.of_nat (length series))%Z →
  show_network_map int_lit df wn_nodes t = Raise IndexError.
Proof.
  intros Hitem Hcol Hrange. unfold show_network_map.
  destruct (for_each_raises_at (map_node int_lit df t) wn_nodes item
              (Scatter [] [] [] []) Hitem) as [e He].
  - intros acc. exists IndexError. unfold map_node.
    destruct item as [name coordinates]. simpl in Hcol.
    destruct (match coordinates with Some xy => xy | None => _ end) as [x y].
    rewrite bool_decide_eq_true_2 by (apply column_is_Some; by eexists).
    by rewrite Hcol, iloc_out_of_range.
  - rewrite He, bind_Raise. f_equal. by eapply map_loop_raises.
Qed.

Lemma show_results_graph_omap (df : frame (num := num))
    (selected_nodes : list string) :
  show_results_graph df selected_nodes
    = omap (λ node, series ← column df node; Some (node, series))
           selected_nodes.
Proof.
  unfold show_results_graph.
  assert (∀ fig : list (string * list num),
            foldl (λ fig node,
                     if bool_decide (node ∈ columns df) then
                       match column df node with
                       | Some series => fig ++ [(node, series)]
                       | None => fig
                       end
                     else fig) fig selected_nodes
            = fig ++ omap (λ node, series ← column df node;
                                   Some (node, series)) selected_nodes)
    as Hgen; [|apply (Hgen [])].
  induction selected_nodes as [|node l IH]; intros fig.
  - by rewrite app_nil_r.
  - cbn [foldl]. rewrite IH. clear IH. case_bool_decide as Hin.
    + destruct (column df node) as [series|] eqn:Hs; cbn; rewrite Hs; cbn;
        [|done]. by rewrite <-app_assoc.
    + destruct (column df node) as [series|] eqn:Hs; cbn; rewrite Hs; cbn;
        [|done]. exfalso. apply Hin, column_is_Some. by eexists.
Qed.

(** X16. The graph and the table agree when every selected node has a
    pressure column: the table is the selected columns in the order of the
    selection and the graph has exactly these as its traces.  When some
    selected node has no column the table fails (KeyError) whereas the graph
    leaves that node out silently. *)
Theorem results_graph_and_table (df : frame (num := num))
    (selected_nodes : list string) :
  match show_results_table df selected_nodes with
  | Some shown =>
      Forall (λ node, node ∈ columns df) selected_nodes ∧
      shown.*1 = selected_nodes ∧
      show_results_graph df selected_nodes = shown
  | None =>
      Exists (λ node, node ∉ columns df) selected_nodes ∧
      (show_results_graph df selected_nodes).*1
        = filter (λ node, node ∈ columns df) selected_nodes
  end.
Proof.
  rewrite show_results_graph_omap. unfold show_results_table.
  destruct (mapM _ selected_nodes) as [shown|] eqn:Hm.
  - apply mapM_Some in Hm.
    induction Hm as [|node c l k Hc _ IH]; [done|].
    destruct (column df node) as [series|] eqn:Hs; [|done].
    cbn in Hc. injection Hc as <-. destruct IH as (HF & Hn & Hg).
    split; [|split].
    + constructor; [|done]. apply column_is_Some. by eexists.
    + cbn. by f_equal.
    + cbn. rewrite Hs. cbn. by f_equal.
  - apply mapM_None in Hm. split.
    + eapply Exists_impl; [exact Hm|]. intros node Hnone Hin.
      apply column_is_Some in Hin as [series Hs]. cbn beta in Hnone.
      by rewrite Hs in Hnone.
    + clear Hm. induction selected_nodes as [|node l IH]; [done|].
      rewrite filter_cons. cbn.
      destruct (column df node) as [series|] eqn:Hs; cbn.
      * rewrite decide_True by (apply column_is_Some; by eexists).
        by f_equal.
      * rewrite decide_False; [done|].
        intros [series Hs']%column_is_Some. by rewrite Hs in Hs'.
Qed.

(** ** Reports on the pipe table *)



Lemma duplicates_listed (ids : list cell) :
  NoDup (dropna (unique (mask ids (duplicated ids)))) ∧
  ∀ n, n ∈ dropna (unique (mask ids (duplicated ids)))
       ↔ 2 ≤ occurrences (Some n) ids.
Proof.
  split; [apply NoDup_dropna, NoDup_unique_from|].
  intros n. rewrite elem_of_dropna. unfold unique, duplicated.
  rewrite elem_of_unique_from, elem_of_mask_duplicated_from.
  pose proof (occurrences_pos (Some n) ids) as Hpos. split.
  - intros [[_ [?%elem_of_nil|?]] _]; done.
  - intros H. split; [|by intros ?%elem_of_nil].
    split; [apply Hpos; lia|by right].
Qed.

(** X18. In every report the function returns, a pipe table in which some
    identifier occurs twice yields the message about pipe duplicates, with
    its suggestion; the identifiers joined in the message are exactly those
    occurring more than once, each listed once. *)
Theorem duplicate_pipes_reported nodes_df pipes_df demands_df errors hints
    (i : string) :
  validate_network nodes_df pipes_df demands_df = Ok (errors, hints) →
  2 ≤ occurrences (Some i) (pp_id <$> pipes_df) →
  ∃ listed,
    duplicate_pipes_msg (concat_with ", " listed) ∈ errors ∧
    "Ensure each pipe ID is unique." ∈ hints ∧
    NoDup listed ∧
    (∀ n, n ∈ listed ↔ 2 ≤ occurrences (Some n) (pp_id <$> pipes_df)).
Proof.
  intros (_ & _ & -> & ->)%validate_network_Ok_inv Hi.
  destruct (duplicates_listed (pp_id <$> pipes_df)) as [Hnd Hlisted].
  exists (dropna (unique (mask (pp_id <$> pipes_df)
                            (duplicated (pp_id <$> pipes_df))))).
  assert (mask (pp_id <$> pipes_df) (duplicated (pp_id <$> pipes_df)) ≠ [])
    as Hne.
  { intros Hnil. apply Hlisted in Hi. rewrite Hnil in Hi.
    by apply elem_of_nil in Hi. }
  unfold expected_errors, expected_hints. cbv zeta.
  unfold duplicate_errors at 2, duplicate_hints at 2.
  destruct (mask (pp_id <$> pipes_df) (duplicated (pp_id <$> pipes_df)))
    as [|c l] eqn:Hm; [done|]. rewrite <-Hm in *.
  rewrite !elem_of_app. repeat split; try done.
  - right. left. left.
  - right. left. left.
  - by apply Hlisted.
  - by apply Hlisted.
Qed.
End Further.

Lemma empty_errors_sound_witness :
  NoDup (nd_id <$> nodes_min) ∧ NoDup (pp_id <$> pipes_min).
Proof.
  destruct (empty_errors_sound nodes_min pipes_min demands_min [])
    as (_ & Hn & Hp & _); [reflexivity|]. by split.
Defined.

Lemma blank_ids_raise_TypeError_witness :
  validate_network [node_N1; node_blank; node_blank] [pipe_to_N99] []
    = Raise TypeError.
Proof.
  apply blank_ids_raise_TypeError. left.
  exists 1, 2, node_blank, node_blank. repeat split. lia.
Defined.


Lemma unknown_demand_reported_witness :
  unknown_demand_msg "Q7"
    ∈ ["Demand specified at non-existent node 'Q7'"] ∧
  check_demand_hint "Q7"
    ∈ ["Check demand node 'Q7' or add it to node table."].
Proof.
  apply (unknown_demand_reported nodes_min pipes_min [demand_unknown]
           _ _ demand_unknown "Q7").
  - reflexivity.
  - left.
  - reflexivity.
  - apply (bool_decide_unpack _). vm_compute. exact I.
Defined.

Lemma validated_network_well_formed_witness :
  ∃ net : list (call Q),
    create_network nodes_min pipes_min demands_min = Ok net ∧
    registered net = [Some "A"; Some "B"].
Proof.
  destruct (validated_network_well_formed nodes_min pipes_min demands_min [])
    as (net & Hnet & Hreg & _); [reflexivity|].
  exists net. by split.
Defined.


Lemma imported_pumped_junction_isolated_witness :
  reported_isolated (tables_of inject_Z network_pumped).1.1
    (tables_of inject_Z network_pumped).1.2
    (tables_of inject_Z network_pumped).2 "C".
Proof.
  apply imported_pumped_junction_isolated.
  - exists lib_C. split; [right; right; left|reflexivity].
  - intros node Hnode Hid.
    repeat (apply elem_of_cons in Hnode as [->|Hnode]); try discriminate.
    by apply elem_of_nil in Hnode.
  - intros link Hlink Hpipe.
    repeat (apply elem_of_cons in Hlink as [->|Hlink]); try discriminate.
    + split; discriminate.
    + by apply elem_of_nil in Hlink.
Defined.

Lemma show_network_map_parallel_witness :
  sc_text (Scatter [q 1 1; inject_Z 0] [q 2 1; inject_Z 0]
             [Some (q 29 1); Some (q 24 1)] ["A"; "B"])
    = wn_nodes_solved.*1.
Proof.
  eapply (show_network_map_parallel inject_Z pressure_sample wn_nodes_solved
            (-1)).
  reflexivity.
Defined.

Lemma show_network_map_in_range_witness :
  ∃ sc, show_network_map inject_Z pressure_sample wn_nodes_solved 1 = Ok sc.
Proof.
  apply show_network_map_in_range.
  - constructor; [simpl; lia|]. constructor; [simpl; lia|]. constructor.
  - constructor; [left|]. constructor; [right; left|]. constructor.
Defined.

Lemma show_network_map_out_of_range_witness :
  show_network_map inject_Z pressure_sample wn_nodes_sample 2
    = Raise IndexError.
Proof.
  apply (show_network_map_out_of_range inject_Z pressure_sample
           wn_nodes_sample 2 ("B", None) [q 25 1; q 24 1]).
  - right. left.
  - reflexivity.
  - simpl. lia.
Defined.


Lemma duplicate_pipes_reported_witness :
  ∃ listed,
    duplicate_pipes_msg (concat_with ", " listed)
      ∈ ["Duplicate pipe IDs: P1";
         "Pipe P1 connects to unknown node 'nan'"] ∧
    NoDup listed.
Proof.
  destruct (duplicate_pipes_reported nodes_min pipes_twice []
              ["Duplicate pipe IDs: P1";
               "Pipe P1 connects to unknown node 'nan'"]
              ["Ensure each pipe ID is unique.";
               "Add node 'nan' to node table."] "P1")
    as (listed & Hin & _ & Hnd & _).
  - reflexivity.
  - vm_compute. lia.
  - exists listed. by split.
Defined.
